(** * htt-ml: dataset assembly pipeline and model architectures

    A shallow embedding of [dataset/create_training_dataset.py] and of the
    architecture builders of [training/keras_models.py], together with the
    properties of the specification that concern them.

    The tabular event store (ROOT), the file system and the merge tool
    ([hadd]) are external to the repository.  They appear here as an explicit
    world state (the files, the events a run lets be seen) and, for the
    expression evaluators, as a type class.

    Definitions come first: the model of the code, the views of a run that the
    statements use, a fragment of the formula language to compute runs and to
    read selection texts, the architectures, concrete inputs.  The theorems
    follow. *)

From Stdlib Require Import Ascii ZArith Bool Lia Floats.
From stdpp Require Import base option list strings pretty gmap fin_maps.

Local Open Scope list_scope.


(* ===================================================================== *)
(** * Python string helpers *)
(* ===================================================================== *)

Module PyStr.

(** [s.startswith(p)] *)
Fixpoint startswith (p s : string) : bool :=
  match p, s with
  | EmptyString, _ => true
  | String a p', String b s' => if Ascii.eqb a b then startswith p' s' else false
  | String _ _, EmptyString => false
  end.

(** [s.endswith(p)] for a one-character [p] *)
Fixpoint endswith_char (c : ascii) (s : string) : bool :=
  match s with
  | EmptyString => false
  | String a EmptyString => Ascii.eqb a c
  | String _ s' => endswith_char c s'
  end.

(** The scanning loop of [s.replace(old, "")] for a non-empty [old]:
    left to right, an occurrence of [old] at the cursor is dropped and the
    scan resumes behind it (occurrences never overlap); any other character
    is copied.  [skip] counts the characters of a dropped occurrence that
    are still ahead of the cursor. *)
Fixpoint remove_scan (old : string) (skip : nat) (s : string) : string :=
  match s with
  | EmptyString => EmptyString
  | String c s' =>
      match skip with
      | S k => remove_scan old k s'
      | O => if startswith old s
             then remove_scan old (String.length old - 1) s'
             else String c (remove_scan old 0 s')
      end
  end.

(** [s.replace(old, "")].  With an empty [old] Python inserts the (empty)
    replacement between the characters, which gives [s] back. *)
Definition remove_all (old s : string) : string :=
  match old with
  | EmptyString => s
  | _ => remove_scan old 0 s
  end.

(** [old in s] *)
Fixpoint contains (old s : string) : bool :=
  startswith old s ||
  match s with
  | EmptyString => false
  | String _ s' => contains old s'
  end.

(** No occurrence of [old] in [s1 + rest] starts inside [s1]. *)
Fixpoint clean_prefix (old s1 rest : string) : bool :=
  match s1 with
  | EmptyString => true
  | String _ s1' => negb (startswith old (s1 +:+ rest)) && clean_prefix old s1' rest
  end.

End PyStr.

(** [os.path.join(a, b)] of [posixpath] *)
Definition path_join (a b : string) : string :=
  if PyStr.startswith "/" b then b
  else if (String.eqb a "" || PyStr.endswith_char "/" a)%bool then a +:+ b
  else a +:+ "/" +:+ b.

(* ===================================================================== *)
(** * Configuration *)
(* ===================================================================== *)

(** One entry of [config["processes"]]. *)
Record ProcessSpec := {
  files : list string;
  cut_string : string;
  weight_string : string;
  class : string
}.

(** The loaded YAML configuration.  [processes] is a mapping; the pipeline
    only iterates over it and looks up the key it is iterating on, so it is
    kept as the sequence of its items in iteration order. *)
Record Config := {
  base_path : string;
  friend_dirs : list string;
  friend_aliases : list string;
  tree_path : string;
  output_path : string;
  output_filename : string;
  event_branch : string;
  training_weight_branch : string;
  processes : list (string * ProcessSpec)
}.

(** Python exceptions that the code can raise on well-typed arguments. *)
Inductive exn :=
| Exception                      (* the bare [raise Exception] *)
| IndexError                     (* list index out of range *)
| UnboundLocalError (name : string)  (* a NameError: local read before assignment *)
| NameError (name : string)          (* a global name that is not bound *)
| KeyError (key : string).           (* a dictionary without the key *)

Inductive result (A : Type) :=
| Ok (a : A)
| Raise (e : exn).
Arguments Ok {A} a.
Arguments Raise {A} e.

Definition result_bind {A B} (r : result A) (k : A → result B) : result B :=
  match r with
  | Ok a => k a
  | Raise e => Raise e
  end.

#[global] Instance result_mret : MRet result := @Ok.
#[global] Instance result_mbind : MBind result := λ A B k r, result_bind r k.

(** [l[k]] for a non-negative [k] *)
Definition index {A} (l : list A) (k : nat) : result A :=
  match l !! k with
  | Some x => Ok x
  | None => Raise IndexError
  end.

(** The first slot of the format string of line 83, filled in. *)
Definition fold_term (config : Config) (num_fold : nat) : string :=
  event_branch config +:+ "%2==" +:+ pretty num_fold.

(** Lines 83-86: the selection text before any alias is stripped,
    ["({EVENT_BRANCH}%2=={NUM_FOLD})&&({CUT_STRING})"]. *)
Definition format_cut_string (config : Config) (num_fold : nat) (spec : ProcessSpec) : string :=
  "(" +:+ fold_term config num_fold +:+ ")&&(" +:+ cut_string spec +:+ ")".

(** Lines 83-89: the selection text handed to [CopyTree] for target [i]. *)
Definition selection_string (config : Config) (num_fold : nat) (spec : ProcessSpec)
    (i : nat) : result string :=
  let cut := format_cut_string config num_fold spec in
  match i with
  | O => Ok cut
  | S k =>
      alias ← index (friend_aliases config) k;
      Ok (PyStr.remove_all (alias +:+ ".") cut)
  end.

(* ===================================================================== *)
(** * The reading of the specification for alias qualifications *)
(* ===================================================================== *)

Module Qualifier.

(** A character of an identifier: a letter, a digit or an underscore. *)
Definition is_ident (c : ascii) : bool :=
  let n := nat_of_ascii c in
  ((48 <=? n) && (n <=? 57)) || ((65 <=? n) && (n <=? 90))
  || ((97 <=? n) && (n <=? 122)) || (n =? 95).

(** The reading of the specification: [old], an alias followed by a dot, is
    dropped only where it qualifies a column, that is where it does not
    continue an identifier.  [prev] tells whether the character before the
    cursor is one of an identifier; the scan is that of
    [PyStr.remove_scan] otherwise. *)
Fixpoint strip_scan (old : string) (prev : bool) (skip : nat) (s : string) : string :=
  match s with
  | EmptyString => EmptyString
  | String c s' =>
      match skip with
      | S k => strip_scan old (is_ident c) k s'
      | O => if PyStr.startswith old s && negb prev
             then strip_scan old (is_ident c) (String.length old - 1) s'
             else String c (strip_scan old (is_ident c) 0 s')
      end
  end.

Definition strip_own_qualifier (alias s : string) : string :=
  strip_scan (alias +:+ ".") false 0 s.

(** Every occurrence of [old] in [s] stands at the start of an identifier. *)
Fixpoint only_qualifies (old : string) (prev : bool) (s : string) : bool :=
  match s with
  | EmptyString => true
  | String c s' =>
      (if PyStr.startswith old s then negb prev else true)
      && only_qualifies old (is_ident c) s'
  end.

End Qualifier.

(* ===================================================================== *)
(** * The tabular event store and the world the script runs in *)
(* ===================================================================== *)

(** [array('f', [x])[0]]: a C [double] stored in a single-precision cell
    (IEEE round to nearest even, 24 bits of precision), read back. *)
Definition to_single (x : float) : float :=
  match Prim2SF x with
  | S754_finite s m e => SF2Prim (binary_round 24 128 s m e)
  | _ => x
  end.

(** Line 114: the initial content of the one-cell weight buffer. *)
Definition sentinel : float := to_single (-999)%float.

(** A value that a single-precision cell holds: the number of a
    floating-point datum that is valid for 24 bits of precision and
    exponents below 128 (zeros, infinities and NaN included). *)
Definition single (v : float) : Prop :=
  ∃ sf, SpecFloat.valid_binary 24 128 sf = true ∧ v = SF2Prim sf.

(** What the script cannot see into: how ROOT evaluates the text of a
    selection on an entry of a chain joined with its friends (each friend is
    given by its alias and its entry at the same index, if it has one), and
    the text of a formula on an entry of a tree. *)
Class TTreeFormula (Entry : Type) := {
  eval_selection : string → Entry → list (string * option Entry) → bool;
  eval_formula : string → Entry → float
}.

Section Pipeline.
Context {Row : Type}.

(** An entry of a tree: the branches it was read with, and the branches
    added to it by [TTree.Branch] / [TBranch.Fill]. *)
Record Entry := {
  columns : Row;
  added : list (string * float)
}.

Context `{!TTreeFormula Entry}.

(** A ROOT file: its trees by name. *)
Record RootFile := { trees : list (string * list Entry) }.

Definition empty_file : RootFile := {| trees := [] |}.

(** The entries of the first tree called [name] in a file. *)
Fixpoint tree_entries (name : string) (ts : list (string * list Entry)) : list Entry :=
  match ts with
  | [] => []
  | (n, es) :: ts' => if String.eqb n name then es else tree_entries name ts'
  end.

(** All entries of a file, tree after tree. *)
Definition file_rows (f : RootFile) : list Entry := concat (snd <$> trees f).

(** The file system: only ROOT files are of interest. *)
Notation "'FS'" := (gmap string RootFile).

(** What an observer of a run sees, debug and info messages left out. *)
Inductive Event :=
| EvFatal (msg : string)                        (* logger.fatal(msg) *)
| EvAddFile (path : string)                     (* chain.AddFile(path) *)
| EvRecreate (path : string)                    (* ROOT.TFile(path, "RECREATE") *)
| EvCopyTree (target : nat) (selection : string)  (* chains[target].CopyTree(selection) *)
| EvWrite (path name : string)                  (* tree.SetName(name); tree.Write() into path *)
| EvCall (argv : list string).                  (* subprocess.call(argv) *)

(** A [TChain]: the tree it looks for and the files added to it.  Files are
    opened when the chain is read, not when they are added. *)
Record Chain := { chain_tree : string; chain_files : list string }.

(** The entries a chain delivers: file after file, in the order added.  A
    file that cannot be opened, or that has no such tree, delivers none. *)
Definition chain_entries (fs : FS) (c : Chain) : list Entry :=
  concat ((λ path, match fs !! path with
                   | Some f => tree_entries (chain_tree c) (trees f)
                   | None => []
                   end) <$> chain_files c).

(** [chain.GetEntries()] *)
Definition GetEntries (fs : FS) (c : Chain) : nat := length (chain_entries fs c).

(** [chain.Reset()] *)
Definition Reset (c : Chain) : Chain := {| chain_tree := chain_tree c; chain_files := [] |}.

(** What the friends attached to a chain show at entry [k]: each under its
    alias, aligned by entry index. *)
Definition friend_view (fs : FS) (friends : list (string * Chain)) (k : nat)
    : list (string * option Entry) :=
  (λ af, (af.1, chain_entries fs af.2 !! k)) <$> friends.

(** The selection holds on entry [ek.1], which is at index [ek.2]. *)
Definition passes (fs : FS) (friends : list (string * Chain)) (selection : string)
    (ek : Entry * nat) : bool :=
  eval_selection selection ek.1 (friend_view fs friends ek.2).

(** [target.CopyTree(selection)] with [friends] attached to [target]: the
    entries of the target chain, in order, on which the selection holds.
    The copy has the branches of the target only. *)
Definition CopyTree (fs : FS) (target : Chain) (friends : list (string * Chain))
    (selection : string) : list Entry :=
  (filter (λ ek, passes fs friends selection ek = true)
          (zip (chain_entries fs target) (seq 0 (length (chain_entries fs target))))).*1.

(* ------------------------------------------------------------------- *)
(** ** Computations: state (the files), output (the events), exceptions *)
(* ------------------------------------------------------------------- *)

(** A computation runs from a file system and gives the file system it
    leaves, the events it emitted, and a value or the exception raised.
    Files and events survive an exception. *)
Definition M (A : Type) : Type := FS → FS * list Event * result A.

Definition ret {A} (a : A) : M A := λ fs, (fs, [], Ok a).
Definition raise {A} (e : exn) : M A := λ fs, (fs, [], Raise e).
Definition lift {A} (r : result A) : M A := λ fs, (fs, [], r).
Definition emit (ev : Event) : M unit := λ fs, (fs, [ev], Ok tt).
Definition get_fs : M FS := λ fs, (fs, [], Ok fs).
Definition modify_fs (f : FS → FS) : M unit := λ fs, (f fs, [], Ok tt).
Definition put_file (path : string) (f : RootFile) : M unit := modify_fs <[path := f]>.

Definition bind {A B} (m : M A) (k : A → M B) : M B :=
  λ fs, match m fs with
        | (fs1, evs1, Ok a) =>
            match k a fs1 with
            | (fs2, evs2, r) => (fs2, evs1 ++ evs2, r)
            end
        | (fs1, evs1, Raise e) => (fs1, evs1, Raise e)
        end.

#[global] Instance M_ret : MRet M := @ret.
#[global] Instance M_bind : MBind M := λ A B k m, bind m k.

(** [for x in l: s = body(s, x)] with the loop-carried variables [s] *)
Fixpoint for_loop {A S} (body : S → A → M S) (s : S) (l : list A) : M S :=
  match l with
  | [] => ret s
  | x :: l' => s' ← body s x; for_loop body s' l'
  end.

(** [enumerate(l)] *)
Definition enumerate {A} (l : list A) : list (nat * A) := zip (seq 0 (length l)) l.

(* ------------------------------------------------------------------- *)
(** ** The body of [main], innermost loops first *)
(* ------------------------------------------------------------------- *)

(** Lines 51-55, one file of one source directory.  A missing file is
    reported and added to the chain all the same. *)
Definition add_file (basepath : string) (chain : Chain) (filename : string) : M Chain :=
  let path := path_join basepath filename in
  fs ← get_fs;
  (if decide (is_Some (fs !! path)) then ret tt
   else emit (EvFatal ("File does not exist: " +:+ path)));;
  emit (EvAddFile path);;
  ret {| chain_tree := chain_tree chain; chain_files := chain_files chain ++ [path] |}.

(** Lines 48-56: one chain per source directory. *)
Definition build_chains (config : Config) (spec : ProcessSpec) (basepaths : list string)
    : M (list Chain) :=
  for_loop (λ chains basepath,
      chain ← for_loop (add_file basepath)
                {| chain_tree := tree_path config; chain_files := [] |} (files spec);
      ret (chains ++ [chain]))
    [] basepaths.

(** Lines 58-65: the path of the output unit of target [i]. *)
Definition unit_path (config : Config) (num_fold : nat) (process : string) (i : nat)
    : result string :=
  match i with
  | O => Ok (path_join (output_path config)
               ("merge_fold" +:+ pretty num_fold +:+ "_" +:+ process +:+ ".root"))
  | S k =>
      alias ← index (friend_aliases config) k;
      Ok (path_join (output_path config)
            (alias +:+ "_merge_fold" +:+ pretty num_fold +:+ "_" +:+ process +:+ ".root"))
  end.

(** [ll[-1].append(x)]; the list is never empty where this is used. *)
Definition append_to_last {A} (ll : list (list A)) (x : A) : list (list A) :=
  alter (λ l, l ++ [x]) (length ll - 1) ll.

(** Lines 77-80: the chains attached to [chains[i]] as friends, with the
    alias each is attached under. *)
Fixpoint friends_of (config : Config) (i : nat) (jchains : list (nat * Chain))
    : result (list (string * Chain)) :=
  match jchains with
  | [] => Ok []
  | (j, friend) :: rest =>
      if decide (i ≠ j) then
        alias ← match j with
                | O => Ok ""
                | S k => index (friend_aliases config) k
                end;
        friends ← friends_of config i rest;
        Ok ((alias, friend) :: friends)
      else friends_of config i rest
  end.

(** Lines 114-121: the fill loop over [range(chain_skimmed.GetEntries())].
    The state is the one-cell buffer [training_weight] and the entries of
    the new branch filled so far.  [GetEntry(i_event)] makes entry [i_event]
    current for the formula (an index in range always finds one). *)
Definition fill_step (weight_string : string) (tree : list Entry)
    (st : float * list float) (i_event : nat) : float * list float :=
  let training_weight :=
    match tree !! i_event with
    | Some e => to_single (eval_formula weight_string e)
    | None => st.1
    end in
  (training_weight, st.2 ++ [training_weight]).

Definition fill_training_weight (weight_string : string) (tree : list Entry) : list float :=
  (fold_left (fill_step weight_string tree) (seq 0 (length tree)) (sentinel, [])).2.

(** The tree with the new branch.  Modelled from the spec: an entry the
    fill loop never reached reads the sentinel back. *)
Definition with_branch (name : string) (branch : list float) (tree : list Entry) : list Entry :=
  imap (λ k e, {| columns := columns e;
                  added := added e ++ [(name, default sentinel (branch !! k))] |}) tree.

(** Lines 48-127: one target [i] of one process in one fold.  Gives the
    updated [created_files] and the (reset) [chains]. *)
Definition target_iteration (config : Config) (num_fold : nat) (process : string)
    (spec : ProcessSpec) (basepaths : list string)
    (created_files : list (list string)) (i : nat) : M (list (list string) * list Chain) :=
  chains ← build_chains config spec basepaths;
  out ← lift (unit_path config num_fold process i);
  let created_files := append_to_last created_files out in
  emit (EvRecreate out);;
  put_file out empty_file;;
  fs ← get_fs;
  base ← lift (index chains 0);
  (if decide (0 < GetEntries fs base) then ret tt
   else emit (EvFatal "Chain (before skimming) does not contain any events.");;
        raise Exception);;
  target ← lift (index chains i);
  friends ← lift (friends_of config i (enumerate chains));
  selection ← lift (selection_string config num_fold spec i);
  emit (EvCopyTree i selection);;
  let chain_skimmed := CopyTree fs target friends selection in
  (if decide (0 < length chain_skimmed) then ret tt
   else emit (EvFatal "Chain (after skimming) does not contain any events.");;
        raise Exception);;
  let chains := Reset <$> chains in
  let chain_skimmed :=
    match i with
    | O => with_branch (training_weight_branch config)
             (fill_training_weight (weight_string spec) chain_skimmed) chain_skimmed
    | S _ => chain_skimmed
    end in
  emit (EvWrite out (class spec));;
  put_file out {| trees := [(class spec, chain_skimmed)] |};;
  ret (created_files, chains).

(** The local variables of [main] that outlive a loop iteration.  [chains]
    is unbound until the first target of the first process has run. *)
Record Locals := {
  created_files : list (list string);
  chains : option (list Chain)
}.

(** Lines 47-127: the body of the loop over the targets, on the local
    variables. *)
Definition target_body (config : Config) (num_fold : nat) (item : string * ProcessSpec)
    (basepaths : list string) (locals : Locals) (ib : nat * string) : M Locals :=
  r ← target_iteration config num_fold item.1 item.2 basepaths (created_files locals) ib.1;
  ret {| created_files := r.1; chains := Some r.2 |}.

(** Lines 37-127: one process of one fold. *)
Definition process_iteration (config : Config) (num_fold : nat) (locals : Locals)
    (item : string * ProcessSpec) : M Locals :=
  let basepaths := base_path config :: friend_dirs config in
  for_loop (target_body config num_fold item basepaths)
    {| created_files := created_files locals ++ [[]]; chains := chains locals |}
    (enumerate basepaths).

(** Lines 134-139: the path of the merged output of source [i]. *)
Definition merged_path (config : Config) (num_fold : nat) (i : nat) : result string :=
  match i with
  | O => Ok (path_join (output_path config)
               ("fold" +:+ pretty num_fold +:+ "_" +:+ output_filename config))
  | S k =>
      alias ← index (friend_aliases config) k;
      Ok (path_join (output_path config)
            (alias +:+ "_fold" +:+ pretty num_fold +:+ "_" +:+ output_filename config))
  end.

(** Line 140: [[process_files[i] for process_files in created_files]] *)
Fixpoint sub_created_files (created_files : list (list string)) (i : nat)
    : result (list string) :=
  match created_files with
  | [] => Ok []
  | process_files :: rest =>
      p ← index process_files i;
      ps ← sub_created_files rest i;
      Ok (p :: ps)
  end.

(** Modelled from the spec: the merge tool [hadd -f output inputs...], which
    is not part of the repository.  It overwrites [output] with the
    concatenation of its inputs, in argument order and without
    deduplication; an input that does not exist contributes nothing. *)
Definition hadd (output : string) (inputs : list string) (fs : gmap string RootFile)
    : gmap string RootFile :=
  <[output := {| trees := concat ((λ p, match fs !! p with
                                         | Some f => trees f
                                         | None => []
                                         end) <$> inputs) |}]> fs.

(** Lines 141-142: [subprocess.call(["hadd", "-f", output_file] + inputs)];
    the exit status is dropped.  The [print] of the same list writes to the
    standard output, which is not among the events. *)
Definition call_hadd (output_file : string) (inputs : list string) : M unit :=
  emit (EvCall (["hadd"; "-f"; output_file] ++ inputs));;
  modify_fs (hadd output_file inputs).

(** Lines 134-143: the merge of source [i]. *)
Definition merge_target (config : Config) (num_fold : nat)
    (created_files : list (list string)) (i : nat) : M unit :=
  output_file ← lift (merged_path config num_fold i);
  inputs ← lift (sub_created_files created_files i);
  call_hadd output_file inputs.

(** Lines 35-143: one fold.  [chains] is the local variable as the previous
    fold left it. *)
Definition fold_iteration (config : Config) (chains0 : option (list Chain)) (num_fold : nat)
    : M (option (list Chain)) :=
  locals ← for_loop (process_iteration config num_fold)
             {| created_files := []; chains := chains0 |} (processes config);
  match chains locals with
  | None => raise (UnboundLocalError "chains")
  | Some cs =>
      for_loop (λ _ ic, merge_target config num_fold (created_files locals) ic.1)
        tt (enumerate cs);;
      ret (Some cs)
  end.

(** Lines 33-143: [main(args, config)]; [args] is not used. *)
Definition main (config : Config) : M unit :=
  for_loop (fold_iteration config) None (seq 0 2);;
  ret tt.

End Pipeline.

(* ===================================================================== *)
(** * Views of a run, to state its properties *)
(* ===================================================================== *)

Section Views.
Context {Row : Type} `{!TTreeFormula (@Entry Row)}.

Notation "'FS'" := (gmap string (@RootFile Row)).
Notation "'Comp' A" := (@M Row A) (at level 10, only parsing).

(** The chains of lines 48-56: the same file list under each directory. *)
Definition chains_of (config : Config) (spec : ProcessSpec) (basepaths : list string)
    : list Chain :=
  (λ basepath, {| chain_tree := tree_path config;
                  chain_files := path_join basepath <$> files spec |}) <$> basepaths.

(** What the existence check of lines 52-55 lets an observer see. *)
Definition add_file_events (fs : FS) (basepath filename : string) : list (@Event) :=
  (if decide (is_Some (fs !! path_join basepath filename)) then []
   else [EvFatal ("File does not exist: " +:+ path_join basepath filename)])
  ++ [EvAddFile (path_join basepath filename)].

Definition build_events (fs : FS) (spec : ProcessSpec) (basepaths : list string)
    : list (@Event) :=
  concat ((λ basepath, concat (add_file_events fs basepath <$> files spec)) <$> basepaths).

(** Lines 77-89: the target chain, its friends and the selection text. *)
Definition joined_view (config : Config) (num_fold : nat) (spec : ProcessSpec)
    (chains : list Chain) (i : nat) : result (Chain * list (string * Chain) * string) :=
  target ← index chains i;
  friends ← friends_of config i (enumerate chains);
  selection ← selection_string config num_fold spec i;
  Ok (target, friends, selection).

(** Lines 107-121: the tree that is written for target [i]. *)
Definition weighted (config : Config) (spec : ProcessSpec) (i : nat)
    (chain_skimmed : list (@Entry Row)) : list (@Entry Row) :=
  match i with
  | O => with_branch (training_weight_branch config)
           (fill_training_weight (weight_string spec) chain_skimmed) chain_skimmed
  | S _ => chain_skimmed
  end.

(** The run of [target_iteration], as one case distinction. *)
Definition target_outcome (config : Config) (num_fold : nat) (process : string)
    (spec : ProcessSpec) (basepaths : list string)
    (created_files : list (list string)) (i : nat) (fs : FS)
    : FS * list (@Event) * result (list (list string) * list Chain) :=
  let chains := chains_of config spec basepaths in
  let built := build_events fs spec basepaths in
  match unit_path config num_fold process i with
  | Raise e => (fs, built, Raise e)
  | Ok out =>
      let fs1 := <[out := empty_file]> fs in
      match index chains 0 with
      | Raise e => (fs1, built ++ [EvRecreate out], Raise e)
      | Ok base =>
          if decide (0 < GetEntries fs1 base) then
            match joined_view config num_fold spec chains i with
            | Raise e => (fs1, built ++ [EvRecreate out], Raise e)
            | Ok (target, friends, selection) =>
                let chain_skimmed := CopyTree fs1 target friends selection in
                if decide (0 < length chain_skimmed) then
                  (<[out := {| trees := [(class spec, weighted config spec i chain_skimmed)] |}]> fs1,
                   built ++ [EvRecreate out; EvCopyTree i selection; EvWrite out (class spec)],
                   Ok (append_to_last created_files out, Reset <$> chains))
                else
                  (fs1,
                   built ++ [EvRecreate out; EvCopyTree i selection;
                             EvFatal "Chain (after skimming) does not contain any events."],
                   Raise Exception)
            end
          else
            (fs1,
             built ++ [EvRecreate out;
                       EvFatal "Chain (before skimming) does not contain any events."],
             Raise Exception)
      end
  end.

(** The weight of one entry: the formula evaluated on it, as the
    single-precision cell holds it. *)
Definition weight_of (weight_string : string) (e : @Entry Row) : float :=
  to_single (eval_formula weight_string e).

(** The entry with the weight in a new branch. *)
Definition with_weight (name weight_string : string) (e : @Entry Row) : @Entry Row :=
  {| columns := columns e; added := added e ++ [(name, weight_of weight_string e)] |}.

(** The alias of friend [k]; only read where the pipeline has found one. *)
Definition alias_of (config : Config) (k : nat) : string :=
  default "" (friend_aliases config !! k).

(** The path of the output unit of (process, source [i], fold). *)
Definition unit_file (config : Config) (num_fold : nat) (process : string) (i : nat) : string :=
  path_join (output_path config)
    (match i with
     | O => "merge_fold" +:+ pretty num_fold +:+ "_" +:+ process +:+ ".root"
     | S k => alias_of config k +:+ "_merge_fold" +:+ pretty num_fold +:+ "_"
                +:+ process +:+ ".root"
     end).

(** The path of the merged output of (source [i], fold). *)
Definition merged_file (config : Config) (num_fold : nat) (i : nat) : string :=
  path_join (output_path config)
    (match i with
     | O => "fold" +:+ pretty num_fold +:+ "_" +:+ output_filename config
     | S k => alias_of config k +:+ "_fold" +:+ pretty num_fold +:+ "_"
                +:+ output_filename config
     end).

(** The merge command of (source [i], fold): the output units of that
    source and fold, one per process, in process order. *)
Definition hadd_command (config : Config) (num_fold : nat) (i : nat) : list string :=
  ["hadd"; "-f"; merged_file config num_fold i]
  ++ ((λ item : string * ProcessSpec, unit_file config num_fold item.1 i) <$> processes config).

(** The merge commands of a fold: one per source, base first. *)
Definition hadd_commands (config : Config) (num_fold : nat) : list (list string) :=
  hadd_command config num_fold <$> seq 0 (S (length (friend_dirs config))).

Definition is_call (ev : @Event) : bool :=
  match ev with
  | EvCall _ => true
  | _ => false
  end.

(** The rows of [created_files] after the processes of a fold. *)
Definition units_of (config : Config) (num_fold : nat) (ps : list (string * ProcessSpec))
    : list (list string) :=
  (λ item : string * ProcessSpec,
     unit_file config num_fold item.1 <$> seq 0 (S (length (friend_dirs config)))) <$> ps.

(** The entries held by the file at a path, none if there is no file. *)
Definition rows_at (fs : FS) (path : string) : list (@Entry Row) :=
  match fs !! path with
  | Some f => file_rows f
  | None => []
  end.

End Views.

(* ===================================================================== *)
(** * A fragment of the formula language, to run the pipeline *)
(* ===================================================================== *)

(** Natural-number columns; expressions over column names (possibly
    qualified by a friend alias), literals, [%], [==], [<], [>], [&&], [||]
    and parentheses, with the precedences of C.  This instance stands for
    ROOT wherever a run has to be computed, and where the reading of a
    selection text is stated. *)
Module Fragment.

Inductive token :=
| TNum (n : N) | TId (x : string)
| TLp | TRp | TMod | TEq | TLt | TGt | TAnd | TOr.

Definition is_digit (c : ascii) : bool :=
  let n := nat_of_ascii c in (48 <=? n) && (n <=? 57).

Definition is_ident_char (c : ascii) : bool :=
  let n := nat_of_ascii c in
  is_digit c || ((65 <=? n) && (n <=? 90)) || ((97 <=? n) && (n <=? 122))
  || (n =? 95) || (n =? 46).

Fixpoint number (acc : N) (s : string) : option N :=
  match s with
  | EmptyString => Some acc
  | String c s' =>
      if is_digit c then number (acc * 10 + N.of_nat (nat_of_ascii c - 48)) s' else None
  end.

(** The token of a maximal run of identifier characters. *)
Definition word (w : string) (rest : list token) : list token :=
  match w with
  | EmptyString => rest
  | _ => match number 0 w with
         | Some n => TNum n :: rest
         | None => TId w :: rest
         end
  end.

Fixpoint lex (w : string) (s : string) : option (list token) :=
  match s with
  | EmptyString => Some (word w [])
  | String c s' =>
      if is_ident_char c then lex (w +:+ String c EmptyString) s'
      else
        let one t := word w <$> (cons t <$> lex EmptyString s') in
        match c, s' with
        | "("%char, _ => one TLp
        | ")"%char, _ => one TRp
        | "%"%char, _ => one TMod
        | "<"%char, _ => one TLt
        | ">"%char, _ => one TGt
        | " "%char, _ => word w <$> lex EmptyString s'
        | "="%char, String "="%char s'' => word w <$> (cons TEq <$> lex EmptyString s'')
        | "&"%char, String "&"%char s'' => word w <$> (cons TAnd <$> lex EmptyString s'')
        | "|"%char, String "|"%char s'' => word w <$> (cons TOr <$> lex EmptyString s'')
        | _, _ => None
        end
  end.

Inductive expr :=
| Num (n : N) | Col (x : string)
| Mod (a b : expr) | Eq (a b : expr) | Lt (a b : expr) | Gt (a b : expr)
| And (a b : expr) | Or (a b : expr).

Definition binop (t : token) : option (nat * (expr → expr → expr)) :=
  match t with
  | TOr => Some (1, Or) | TAnd => Some (2, And) | TEq => Some (3, Eq)
  | TLt => Some (4, Lt) | TGt => Some (4, Gt) | TMod => Some (5, Mod)
  | _ => None
  end.

(** Precedence climbing; [fuel] bounds the number of steps. *)
Fixpoint parse_expr (fuel : nat) (prec : nat) (ts : list token) : option (expr * list token) :=
  match fuel with
  | O => None
  | S fuel =>
      match ts with
      | TNum n :: ts' => climb fuel (Num n) prec ts'
      | TId x :: ts' => climb fuel (Col x) prec ts'
      | TLp :: ts' =>
          match parse_expr fuel 0 ts' with
          | Some (e, TRp :: ts'') => climb fuel e prec ts''
          | _ => None
          end
      | _ => None
      end
  end
with climb (fuel : nat) (lhs : expr) (prec : nat) (ts : list token) : option (expr * list token) :=
  match fuel with
  | O => None
  | S fuel =>
      match ts with
      | [] => Some (lhs, ts)
      | t :: ts' =>
          match binop t with
          | Some (p, mk) =>
              if prec <=? p then
                match parse_expr fuel (S p) ts' with
                | Some (rhs, ts'') => climb fuel (mk lhs rhs) prec ts''
                | None => None
                end
              else Some (lhs, ts)
          | None => Some (lhs, ts)
          end
      end
  end.

Definition parse (s : string) : option expr :=
  ts ← lex EmptyString s;
  match parse_expr (2 * length ts + 2) 0 ts with
  | Some (e, []) => Some e
  | _ => None
  end.

(** A row: its columns by name. *)
Definition NRow : Type := list (string * N).

Fixpoint column (x : string) (r : NRow) : option N :=
  match r with
  | [] => None
  | (y, v) :: r' => if String.eqb x y then Some v else column x r'
  end.

(** [x] read as [alias.rest], if it has a dot. *)
Fixpoint qualified (alias x : string) : option (string * string) :=
  match x with
  | EmptyString => None
  | String c x' =>
      if Ascii.eqb c "."%char then Some (alias, x')
      else qualified (alias +:+ String c EmptyString) x'
  end.

Fixpoint friend_row (alias : string) (friends : list (string * option NRow)) : option (option NRow) :=
  match friends with
  | [] => None
  | (a, r) :: fs => if String.eqb a alias then Some r else friend_row alias fs
  end.

Fixpoint first_column (x : string) (rows : list (option NRow)) : option N :=
  match rows with
  | [] => None
  | r :: rows' =>
      match r ≫= column x with
      | Some v => Some v
      | None => first_column x rows'
      end
  end.

(** A column name is looked up in the friend it is qualified with, else in
    the tree itself and then in its friends; an unknown name reads 0. *)
Definition resolve (x : string) (own : NRow) (friends : list (string * option NRow)) : N :=
  match qualified EmptyString x ≫= (λ ax, friend_row ax.1 friends ≫= (λ r, Some (r, ax.2))) with
  | Some (r, y) => default 0%N (r ≫= column y)
  | None => default 0%N (first_column x (Some own :: (snd <$> friends)))
  end.

Definition of_bool (b : bool) : N := if b then 1%N else 0%N.
Definition truth (n : N) : bool := negb (n =? 0)%N.

Fixpoint eval (own : NRow) (friends : list (string * option NRow)) (e : expr) : N :=
  match e with
  | Num n => n
  | Col x => resolve x own friends
  | Mod a b => (eval own friends a `mod` eval own friends b)%N
  | Eq a b => of_bool (eval own friends a =? eval own friends b)%N
  | Lt a b => of_bool (eval own friends a <? eval own friends b)%N
  | Gt a b => of_bool (eval own friends b <? eval own friends a)%N
  | And a b => of_bool (truth (eval own friends a) && truth (eval own friends b))
  | Or a b => of_bool (truth (eval own friends a) || truth (eval own friends b))
  end.

Definition holds (s : string) (own : NRow) (friends : list (string * option NRow)) : bool :=
  match parse s with
  | Some e => truth (eval own friends e)
  | None => false
  end.

Definition value (s : string) (own : NRow) : float :=
  match parse s with
  | Some e => PrimFloat.of_uint63 (Uint63.of_Z (Z.of_N (eval own [] e)))
  | None => nan
  end.

Definition friend_columns (af : string * option (@Entry NRow)) : string * option NRow :=
  (af.1, columns <$> af.2).

#[global] Instance formula : TTreeFormula (@Entry NRow) := {|
  eval_selection s e friends := holds s (columns e) (friend_columns <$> friends);
  eval_formula s e := value s (columns e)
|}.

(** An entry as read from an input file. *)
Definition entry (r : NRow) : @Entry NRow := {| columns := r; added := [] |}.

(** An input file with one tree. *)
Definition input (tree : string) (rows : list NRow) : @RootFile NRow :=
  {| trees := [(tree, entry <$> rows)] |}.

End Fragment.

(* ===================================================================== *)
(** * The selection of a target, as the fragment reads it *)
(* ===================================================================== *)

(** Every character of [s] satisfies [f]. *)
Fixpoint all_chars (f : ascii → bool) (s : string) : bool :=
  match s with
  | EmptyString => true
  | String c s' => f c && all_chars f s'
  end.

(** A plain column name: a letter or an underscore, then letters, digits
    and underscores. *)
Definition identifier (s : string) : bool :=
  match s with
  | EmptyString => false
  | String c s' =>
      Qualifier.is_ident c && negb (Fragment.is_digit c) && all_chars Qualifier.is_ident s'
  end.

Definition no_dot (s : string) : bool := all_chars (λ c, negb (Ascii.eqb c ".")) s.

(** The cut as target [i] is given it: for a friend target, line 89 has
    removed the text of the target's own alias and a dot from it. *)
Definition own_cut (config : Config) (spec : ProcessSpec) (i : nat) : string :=
  match i with
  | O => cut_string spec
  | S k => PyStr.remove_all (alias_of config k +:+ ".") (cut_string spec)
  end.

(** The text of line 83 around that cut. *)
Definition own_selection (config : Config) (num_fold : nat) (spec : ProcessSpec) (i : nat)
    : string :=
  "(" +:+ fold_term config num_fold +:+ ")&&(" +:+ own_cut config spec i +:+ ")".

(** [event_branch % 2 == num_fold] *)
Definition fold_test (config : Config) (num_fold : nat) : Fragment.expr :=
  Fragment.Eq (Fragment.Mod (Fragment.Col (event_branch config)) (Fragment.Num 2))
    (Fragment.Num (N.of_nat num_fold)).

(** The event number of an entry, read in its joined view. *)
Definition event_of (config : Config) (e : @Entry Fragment.NRow)
    (friends : list (string * option (@Entry Fragment.NRow))) : N :=
  Fragment.resolve (event_branch config) (columns e) (Fragment.friend_columns <$> friends).

(** The expression [c] holds on an entry in its joined view. *)
Definition cut_holds (c : Fragment.expr) (e : @Entry Fragment.NRow)
    (friends : list (string * option (@Entry Fragment.NRow))) : bool :=
  Fragment.truth (Fragment.eval (columns e) (Fragment.friend_columns <$> friends) c).

(** The entries of the target chain, in order, that satisfy [p] in their
    joined view. *)
Definition kept {Row : Type} `{!TTreeFormula (@Entry Row)}
    (fs : gmap string (@RootFile Row)) (target : Chain) (friends : list (string * Chain))
    (p : @Entry Row → list (string * option (@Entry Row)) → bool) : list (@Entry Row) :=
  (filter (λ ek : @Entry Row * nat, p ek.1 (friend_view fs friends ek.2) = true)
          (zip (chain_entries fs target) (seq 0 (length (chain_entries fs target))))).*1.

(* ===================================================================== *)
(** * The model architectures (training/keras_models.py) *)
(* ===================================================================== *)

Module Keras.

Inductive activation := relu | tanh | softmax.

(** The layers the builders add, with the arguments they pass. *)
Inductive layer :=
| Dense (units : nat) (input_dim : option nat) (kernel_regularizer : option float)
| Activation (a : activation)
| Dropout (rate : float).

Inductive optimizer :=
| Nadam
| Adam (lr : float).

(** A compiled [Sequential] model. *)
Record Sequential := {
  layers : list layer;
  loss : string;
  optimizer_ : optimizer;
  weighted_metrics : list string
}.

(** Lines 129-144 *)
#[warnings="-inexact-float"]
Definition smhtt_dropout (num_inputs num_outputs : nat) : Sequential :=
  let model :=
    fold_left (λ (model : list layer) (inodes : nat * nat),
        model
        ++ [match inodes.1 with
            | O => Dense inodes.2 (Some num_inputs) None
            | S _ => Dense inodes.2 None None
            end]
        ++ [Activation relu]
        ++ [Dropout 0.5])
      (enumerate (replicate 2 200)) [] in
  let model := model ++ [Dense num_outputs None None] in
  let model := model ++ [Activation softmax] in
  {| layers := model; loss := "mean_squared_error"; optimizer_ := Nadam;
     weighted_metrics := [] |}.

(** Lines 147-162 *)
#[warnings="-inexact-float"]
Definition smhtt_dropout_tanh (num_inputs num_outputs : nat) : Sequential :=
  let model :=
    fold_left (λ (model : list layer) (inodes : nat * nat),
        model
        ++ [match inodes.1 with
            | O => Dense inodes.2 (Some num_inputs) (Some 1e-5%float)
            | S _ => Dense inodes.2 None (Some 1e-5%float)
            end]
        ++ [Activation tanh]
        ++ [Dropout 0.3])
      (enumerate (replicate 2 200)) [] in
  let model := model ++ [Dense num_outputs None (Some 1e-5%float)] in
  let model := model ++ [Activation softmax] in
  {| layers := model; loss := "categorical_crossentropy"; optimizer_ := Adam 1e-4;
     weighted_metrics := ["mean_squared_error"] |}.

(** [np.array]: its shape and its values. *)
Record ndarray := { shape : list nat; data : list float }.

(** A layer of a model as the reconstructions read it: [layer.name] and
    [zip(layer.weights, layer.get_weights())], each weight by its name. *)
Record KLayer := { name : string; weights : list (string * ndarray) }.

(** Modelled from the spec: the library's per-layer naming convention
    ([dense_<n>/kernel], [dense_<n>/bias], 1-indexed), for a model built
    first in its session.  The name of a weight is that of its backend
    variable, which ends in the output index [:0].  A dense layer of [units]
    units fed with [width] values has a kernel of shape [width; units] and a
    bias of shape [units]; the other layers have no weights.  [values] gives
    the trained numbers of each weight. *)
Fixpoint model_layers (values : string → list float) (width : nat)
    (dense activations dropouts : nat) (ls : list layer) : list KLayer :=
  match ls with
  | [] => []
  | Dense units input_dim _ :: ls' =>
      let width := default width input_dim in
      let name := "dense_" +:+ pretty dense in
      {| name := name;
         weights := [(name +:+ "/kernel:0",
                      {| shape := [width; units]; data := values (name +:+ "/kernel:0") |});
                     (name +:+ "/bias:0",
                      {| shape := [units]; data := values (name +:+ "/bias:0") |})] |}
      :: model_layers values units (S dense) activations dropouts ls'
  | Activation _ :: ls' =>
      {| name := "activation_" +:+ pretty activations; weights := [] |}
      :: model_layers values width dense (S activations) dropouts ls'
  | Dropout _ :: ls' =>
      {| name := "dropout_" +:+ pretty dropouts; weights := [] |}
      :: model_layers values width dense activations (S dropouts) ls'
  end.

(** The trained model handed to a reconstruction. *)
Definition trained (values : string → list float) (model : Sequential) : list KLayer :=
  model_layers values 0 1 1 1 (layers model).

(** A tensor of the graph the reconstructions build. *)
Inductive tensor :=
| Placeholder (width : nat)
| Var (name : string) (initializer : ndarray)        (* tf.get_variable *)
| MatMul (a b : tensor)
| Add (a b : tensor)
| Tanh (a : tensor)
| Relu (a : tensor)
| Softmax (a : tensor).

(** The names bound in the module when a function runs: those of the import
    statements of lines 1-5 and the functions the module defines.  What the
    two star imports bind is decided by the installed library. *)
Record Imports := {
  keras_layers_star : list string;       (* from keras.layers import * *)
  keras_optimizers_star : list string    (* from keras.optimizers import * *)
}.

Definition module_globals (imports : Imports) : list string :=
  ["Sequential"; "load_model"]
  ++ keras_layers_star imports
  ++ keras_optimizers_star imports
  ++ ["l2"; "np"]
  ++ ["example"; "smhtt_simple"; "smhtt_mt"; "smhtt_et"; "smhtt_tt"; "smhtt_legacy";
      "smhtt_dropout"; "smhtt_dropout_tanh"; "smhtt_dropout_tanh_tensorflow";
      "smhtt_dropout_tensorflow"].

(** Reading a name that is not local to the function. *)
Definition global (imports : Imports) (x : string) : result unit :=
  if decide (x ∈ module_globals imports) then Ok tt else Raise (NameError x).

(** Lines 166-172 and 188-194: the dictionary of the weights by name. *)
Definition collect_weights (keras_model : list KLayer) : gmap string ndarray :=
  fold_left (λ weights layer,
      fold_left (λ weights wa, <[wa.1 := wa.2]> weights) (Keras.weights layer) weights)
    keras_model ∅.

(** [weights[key]] *)
Definition getitem (weights : gmap string ndarray) (key : string) : result ndarray :=
  match weights !! key with
  | Some a => Ok a
  | None => Raise (KeyError key)
  end.

(** [tf.get_variable(name, initializer=weights[key])]: [tf] is looked up
    first, then the key. *)
Definition get_variable (imports : Imports) (weights : gmap string ndarray)
    (name key : string) : result tensor :=
  global imports "tf";;
  a ← getitem weights key;
  Ok (Var name a).

(** Lines 174-184 and 196-206, up to the activation of the hidden layers. *)
Definition reconstruction (hidden : tensor → tensor) (imports : Imports)
    (input_placeholder : tensor) (keras_model : list KLayer) : result tensor :=
  let weights := collect_weights keras_model in
  w1 ← get_variable imports weights "w1" "dense_1/kernel:0";
  b1 ← get_variable imports weights "b1" "dense_1/bias:0";
  w2 ← get_variable imports weights "w2" "dense_2/kernel:0";
  b2 ← get_variable imports weights "b2" "dense_2/bias:0";
  w3 ← get_variable imports weights "w3" "dense_3/kernel:0";
  b3 ← get_variable imports weights "b3" "dense_3/bias:0";
  global imports "tf";;
  let l1 := hidden (Add b1 (MatMul input_placeholder w1)) in
  let l2 := hidden (Add b2 (MatMul l1 w2)) in
  let l3 := Softmax (Add b3 (MatMul l2 w3)) in
  Ok l3.

(** Lines 165-184 *)
Definition smhtt_dropout_tanh_tensorflow := reconstruction Tanh.

(** Lines 187-206 *)
Definition smhtt_dropout_tensorflow := reconstruction Relu.

(** The dense layers of an architecture with the activation that follows
    each: width and activation, in order.  Dropout passes its input on at
    inference. *)
Fixpoint dense_stack (ls : list layer) : list (nat * activation) :=
  match ls with
  | Dense units _ _ :: Activation a :: ls' => (units, a) :: dense_stack ls'
  | _ :: ls' => dense_stack ls'
  | [] => []
  end.

(** The dense layers of a graph: for each [act(b + x @ w)], the width of
    the bias, which has to be the number of columns of the kernel and that of
    rows has to be the width of [x], and the activation. *)
Fixpoint graph_stack (t : tensor) : option (nat * list (nat * activation)) :=
  let dense act b x w :=
    match graph_stack x, shape b, shape w with
    | Some (width, stack), [units], [rows; columns] =>
        if decide (rows = width ∧ columns = units)
        then Some (units, stack ++ [(units, act)]) else None
    | _, _, _ => None
    end in
  match t with
  | Placeholder width => Some (width, [])
  | Tanh (Add (Var _ b) (MatMul x (Var _ w))) => dense tanh b x w
  | Relu (Add (Var _ b) (MatMul x (Var _ w))) => dense relu b x w
  | Softmax (Add (Var _ b) (MatMul x (Var _ w))) => dense softmax b x w
  | _ => None
  end.

(** The graph of a reconstruction over six given arrays. *)
Definition forward (hidden : tensor → tensor) (input : tensor)
    (k1 a1 k2 a2 k3 a3 : ndarray) : tensor :=
  Softmax (Add (Var "b3" a3)
    (MatMul (hidden (Add (Var "b2" a2)
      (MatMul (hidden (Add (Var "b1" a1) (MatMul input (Var "w1" k1)))) (Var "w2" k2))))
      (Var "w3" k3))).

End Keras.

(* ===================================================================== *)
(** * Concrete inputs *)
(* ===================================================================== *)

Module Inputs.
Import Fragment.

Definition ggh (cut : string) : ProcessSpec :=
  {| files := ["a.root"]; cut_string := cut; weight_string := "w"; class := "sig" |}.

(** One friend directory, one process. *)
Definition config (cut : string) : Config := {|
  base_path := "/in"; friend_dirs := ["/nn"]; friend_aliases := ["nn"];
  tree_path := "ntuple"; output_path := "/out"; output_filename := "training.root";
  event_branch := "event"; training_weight_branch := "training_weight";
  processes := [("ggh", ggh cut)]
|}.

Definition base_rows : list NRow :=
  [[("event", 0%N); ("pt", 30%N); ("w", 2%N)];
   [("event", 1%N); ("pt", 40%N); ("w", 3%N)];
   [("event", 2%N); ("pt", 10%N); ("w", 1%N)]].

Definition friend_rows : list NRow :=
  [[("score", 3%N)]; [("score", 2%N)]; [("score", 5%N)]].

(** The input files: the base tree and its friend, entry by entry. *)
Definition inputs (friend : list NRow) : gmap string (@RootFile NRow) :=
  <["/in/a.root" := input "ntuple" base_rows]>
    (<["/nn/a.root" := input "ntuple" friend]> ∅).

(** Weights that a single-precision cell cannot hold: 2^24+1 and 2^25+3. *)
Definition heavy_rows : list NRow :=
  [[("event", 0%N); ("pt", 30%N); ("w", 16777217%N)];
   [("event", 1%N); ("pt", 40%N); ("w", 3%N)];
   [("event", 2%N); ("pt", 50%N); ("w", 33554435%N)]].

Definition heavy_inputs : gmap string (@RootFile NRow) :=
  <["/in/a.root" := input "ntuple" heavy_rows]> (inputs friend_rows).

(** No file at all. *)
Definition no_files : gmap string (@RootFile NRow) := ∅.

Definition base_chain : Chain := {| chain_tree := "ntuple"; chain_files := ["/in/a.root"] |}.
Definition friend_chain : Chain := {| chain_tree := "ntuple"; chain_files := ["/nn/a.root"] |}.

(** The run of the base target of fold 0. *)
Definition base_target (cut : string) (fs : gmap string (@RootFile NRow)) :=
  target_iteration (config cut) 0 "ggh" (ggh cut) ["/in"; "/nn"] [[]] 0 fs.

(** No friend; of the two files of the process only [a.root] is among
    [inputs]. *)
Definition config_two_files : Config := {|
  base_path := "/in"; friend_dirs := []; friend_aliases := [];
  tree_path := "ntuple"; output_path := "/out"; output_filename := "training.root";
  event_branch := "event"; training_weight_branch := "training_weight";
  processes := [("ggh", {| files := ["a.root"; "b.root"]; cut_string := "pt>20";
                           weight_string := "w"; class := "sig" |})]
|}.

(** Two friends, the alias of the second ends in that of the first. *)
Definition config_two_friends : Config := {|
  base_path := "/in"; friend_dirs := ["/nn"; "/xnn"]; friend_aliases := ["nn"; "xnn"];
  tree_path := "ntuple"; output_path := "/out"; output_filename := "training.root";
  event_branch := "event"; training_weight_branch := "training_weight";
  processes := [("ggh", ggh "xnn.pt>0&&nn.score>0")]
|}.

(** No process. *)
Definition config_no_process : Config := {|
  base_path := "/in"; friend_dirs := ["/nn"]; friend_aliases := ["nn"];
  tree_path := "ntuple"; output_path := "/out"; output_filename := "training.root";
  event_branch := "event"; training_weight_branch := "training_weight";
  processes := []
|}.

(** Star imports of which that of [keras.optimizers] binds [tf], as the
    module does for the TensorFlow backend. *)
Definition imports_with_tf : Keras.Imports := {|
  Keras.keras_layers_star := ["Dense"; "Activation"; "Dropout"];
  Keras.keras_optimizers_star := ["K"; "tf"; "Adam"; "Nadam"]
|}.

End Inputs.

(* ===================================================================== *)
(** * Python strings and paths, on examples *)
(* ===================================================================== *)

Example replace_ex1 : PyStr.remove_all "nn." "(nn.event%2==0)&&(xnn.pt>0&&nn.nn.s>0.5)" = "(event%2==0)&&(xpt>0&&s>0.5)".
Proof. vm_compute. reflexivity. Qed.
Example replace_ex2 : PyStr.remove_all "a." "aa.." = "a.".
Proof. reflexivity. Qed.
Example join_ex : path_join "/out" "merge_fold0_ggh.root" = "/out/merge_fold0_ggh.root"
  /\ path_join "/out/" "x" = "/out/x" /\ path_join "" "x" = "x" /\ path_join "/out" "/abs" = "/abs".
Proof. repeat split; reflexivity. Qed.

Example parse_ex : Fragment.parse "(event%2==0)&&(nn.score>5||pt<20)" =
  Some (Fragment.And (Fragment.Eq (Fragment.Mod (Fragment.Col "event") (Fragment.Num 2)) (Fragment.Num 0))
         (Fragment.Or (Fragment.Gt (Fragment.Col "nn.score") (Fragment.Num 5))
                      (Fragment.Lt (Fragment.Col "pt") (Fragment.Num 20)))).
Proof. vm_compute. reflexivity. Qed.

(* ===================================================================== *)
(** * Rounding to single precision *)
(* ===================================================================== *)

Section Rounding.
Local Open Scope Z_scope.
Variables prec emax : Z.
Hypothesis prec_pos : 0 < prec.

Lemma digits2_log2 (p : positive) : Z.pos (digits2_pos p) = Z.log2 (Z.pos p) + 1.
Proof.
  induction p as [p IH|p IH|]; simpl digits2_pos.
  - rewrite Pos2Z.inj_succ, IH. change (Z.pos p~1) with (2 * Z.pos p + 1).
    rewrite Z.log2_succ_double by lia. lia.
  - rewrite Pos2Z.inj_succ, IH. change (Z.pos p~0) with (2 * Z.pos p).
    rewrite Z.log2_double by lia. lia.
  - reflexivity.
Qed.

Lemma Zdigits2_log2 (m : Z) : 0 < m → Zdigits2 m = Z.log2 m + 1.
Proof. destruct m; try lia. intros _. apply digits2_log2. Qed.

Lemma fexp_mono (a b : Z) : a <= b → SpecFloat.fexp prec emax a <= SpecFloat.fexp prec emax b.
Proof. unfold SpecFloat.fexp. lia. Qed.

Lemma fexp_emin (a : Z) : SpecFloat.emin prec emax <= SpecFloat.fexp prec emax a.
Proof. unfold SpecFloat.fexp. lia. Qed.

Lemma shr_1_m (r : shr_record) : 0 <= shr_m r → shr_m (shr_1 r) = shr_m r / 2.
Proof.
  destruct r as [m r s]. simpl. intros Hm.
  destruct m as [|p|p]; [reflexivity| |lia].
  destruct p as [p|p|]; simpl.
  - change (Z.pos p~1) with (2 * Z.pos p + 1).
    apply Z.div_unique with 1; lia.
  - change (Z.pos p~0) with (2 * Z.pos p).
    apply Z.div_unique with 0; lia.
  - reflexivity.
Qed.

Lemma iter_shr_1_m (p : positive) : ∀ r,
  0 <= shr_m r → shr_m (SpecFloat.iter_pos shr_1 p r) = shr_m r / 2 ^ Z.pos p.
Proof.
  assert (∀ q, 0 < 2 ^ Z.pos q) as Hpow by (intros; apply Z.pow_pos_nonneg; lia).
  assert (∀ q, 2 ^ Z.pos q~0 = 2 ^ Z.pos q * 2 ^ Z.pos q) as Hdouble.
  { intros q. rewrite <- Z.pow_add_r by lia. f_equal. lia. }
  induction p as [p IH|p IH|]; intros r Hr; cbn [SpecFloat.iter_pos].
  - assert (0 <= shr_m (shr_1 r)) as H1 by (rewrite shr_1_m by lia; apply Z.div_pos; lia).
    assert (0 <= shr_m (SpecFloat.iter_pos shr_1 p (shr_1 r))) as H2
      by (rewrite IH by lia; apply Z.div_pos; [lia|apply Hpow]).
    rewrite IH, IH, shr_1_m by lia.
    pose proof (Hpow p) as Hp.
    rewrite !Z.div_div by lia.
    f_equal. replace (Z.pos p~1) with (1 + Z.pos p~0) by lia.
    rewrite Z.pow_add_r, Hdouble by lia. lia.
  - assert (0 <= shr_m (SpecFloat.iter_pos shr_1 p r)) as H2
      by (rewrite IH by lia; apply Z.div_pos; [lia|apply Hpow]).
    rewrite IH, IH by lia.
    pose proof (Hpow p) as Hp.
    rewrite !Z.div_div by lia.
    f_equal. apply eq_sym, Hdouble.
  - rewrite shr_1_m by lia. rewrite Z.pow_1_r. reflexivity.
Qed.

(** The mantissa and exponent are those of a number in the format, or the
    mantissa is zero. *)
Definition canonical (m e : Z) : Prop := 0 < m → SpecFloat.fexp prec emax (Zdigits2 m + e) = e.

(** After the shift to the exponent of the format the mantissa is
    canonical; a mantissa shifted out altogether leaves the least
    exponent. *)
Lemma shr_fexp_canonical (m e : Z) (l : location) :
  0 <= m → e <= SpecFloat.fexp prec emax (Zdigits2 m + e) →
  let '(mrs, e') := shr_fexp prec emax m e l in
  0 <= shr_m mrs ∧ canonical (shr_m mrs) e' ∧ SpecFloat.emin prec emax <= e'
  ∧ ((e' = e ∧ shr_m mrs = m) ∨ (shr_m mrs = 0 → e' = SpecFloat.emin prec emax)).
Proof.
  intros Hm He. unfold shr_fexp, shr.
  assert (shr_m (shr_record_of_loc m l) = m) as Hrec by (destruct l as [|[]]; reflexivity).
  destruct (SpecFloat.fexp prec emax (Zdigits2 m + e) - e) as [|n|n] eqn:Hn.
  - rewrite Hrec. split; [exact Hm|]. split; [intros _; lia|].
    split; [pose proof (fexp_emin (Zdigits2 m + e)); lia|left; split; [lia|reflexivity]].
  - rewrite iter_shr_1_m by (rewrite Hrec; exact Hm). rewrite Hrec.
    assert (0 < 2 ^ Z.pos n) as Hpow by (apply Z.pow_pos_nonneg; lia).
    split; [apply Z.div_pos; lia|].
    replace (e + Z.pos n) with (SpecFloat.fexp prec emax (Zdigits2 m + e)) by lia.
    split; [|split; [apply fexp_emin|]].
    + intros Hq.
      assert (0 < m) as Hm' by (destruct (Z.eq_dec m 0) as [->|]; [rewrite Z.div_0_l in Hq; lia|lia]).
      rewrite (Zdigits2_log2 _ Hq), <- Z.shiftr_div_pow2, Z.log2_shiftr by lia.
      assert (Z.pos n <= Z.log2 m).
      { apply Z.log2_le_pow2; [lia|].
        destruct (Z.le_gt_cases (2 ^ Z.pos n) m) as [|Hlt]; [lia|].
        rewrite Z.div_small in Hq by lia. lia. }
      rewrite (Zdigits2_log2 _ Hm') in *.
      f_equal. lia.
    + right. intros Hq.
      assert (m < 2 ^ Z.pos n) as Hlt.
      { destruct (Z.le_gt_cases (2 ^ Z.pos n) m) as [Hle|]; [|lia].
        pose proof (Z.div_le_mono _ _ (2 ^ Z.pos n) Hpow Hle) as Hd.
        rewrite Z.div_same in Hd by lia. lia. }
      destruct (Z.eq_dec m 0) as [->|Hne].
      * change (Zdigits2 0) with 0 in *. unfold SpecFloat.fexp in *. lia.
      * assert (Zdigits2 m <= Z.pos n).
        { rewrite Zdigits2_log2 by lia.
          assert (Z.log2 m < Z.pos n) by (apply Z.log2_lt_pow2; lia). lia. }
        unfold SpecFloat.fexp in *. lia.
  - rewrite Hrec. lia.
Qed.

Lemma Zdigits2_mono (a b : Z) : 0 <= a <= b → Zdigits2 a <= Zdigits2 b.
Proof.
  intros [Ha Hab]. destruct (Z.eq_dec a 0) as [->|].
  - simpl. destruct b; simpl; lia.
  - rewrite !Zdigits2_log2 by lia. pose proof (Z.log2_le_mono a b Hab). lia.
Qed.

Lemma round_nearest_even_range (m : Z) (l : location) :
  m <= round_nearest_even m l <= m + 1.
Proof. destruct l as [|[]]; simpl; try lia. destruct (Z.even m); lia. Qed.

Lemma binary_round_aux_valid (s : bool) (m e : Z) (l : location) :
  0 <= m → e <= SpecFloat.fexp prec emax (Zdigits2 m + e) →
  SpecFloat.valid_binary prec emax (binary_round_aux prec emax s m e l) = true.
Proof.
  intros Hm He. unfold binary_round_aux.
  pose proof (shr_fexp_canonical m e l Hm He) as H1.
  destruct (shr_fexp prec emax m e l) as [mrs' e'].
  destruct H1 as (Hm0 & Hcan & Hemin & Hzero).
  set (m1 := round_nearest_even (shr_m mrs') (loc_of_shr_record mrs')).
  pose proof (round_nearest_even_range (shr_m mrs') (loc_of_shr_record mrs')) as Hr.
  fold m1 in Hr.
  assert (e' <= SpecFloat.fexp prec emax (Zdigits2 m1 + e')) as He'.
  { destruct (Z.eq_dec (shr_m mrs') 0) as [Hz|Hnz].
    - destruct Hzero as [[-> Hsame]|Hzero].
      + transitivity (SpecFloat.fexp prec emax (Zdigits2 m + e)); [exact He|].
        apply fexp_mono. pose proof (Zdigits2_mono m m1). lia.
      + rewrite (Hzero Hz). apply fexp_emin.
    - assert (SpecFloat.fexp prec emax (Zdigits2 (shr_m mrs') + e') = e') as Heq
        by (apply Hcan; lia).
      rewrite <- Heq at 1. apply fexp_mono.
      pose proof (Zdigits2_mono (shr_m mrs') m1). lia. }
  pose proof (shr_fexp_canonical m1 e' loc_Exact ltac:(lia) He') as H2.
  destruct (shr_fexp prec emax m1 e' loc_Exact) as [mrs'' e''].
  destruct H2 as (Hm2 & Hcan2 & _).
  destruct (shr_m mrs'') as [|p|p] eqn:Hp; try reflexivity.
  destruct (e'' <=? emax - prec) eqn:Hle; [|reflexivity].
  simpl. unfold SpecFloat.valid_binary, bounded, canonical_mantissa. rewrite Hle, andb_true_r.
  apply Z.eqb_eq. apply Hcan2. lia.
Qed.

Lemma iter_xO (d m : positive) : Z.pos (PosDef.Pos.iter xO m d) = Z.pos m * 2 ^ Z.pos d.
Proof.
  change (PosDef.Pos.iter xO m d) with (Pos.iter xO m d).
  revert m. induction d as [|d IH] using Pos.peano_ind; intros m.
  - rewrite Pos.iter_succ_r || simpl. lia.
  - rewrite Pos.iter_succ, Pos2Z.inj_xO, IH, Pos2Z.inj_succ, Z.pow_succ_r by lia. lia.
Qed.

(** Rounding gives a datum of the format. *)
Lemma binary_round_valid (s : bool) (m : positive) (e : Z) :
  SpecFloat.valid_binary prec emax (binary_round prec emax s m e) = true.
Proof.
  unfold binary_round, shl_align.
  destruct (SpecFloat.fexp prec emax (Z.pos (digits2_pos m) + e) - e) as [|d|d] eqn:Hd;
    apply binary_round_aux_valid; try lia; simpl Zdigits2.
  - lia.
  - lia.
  - rewrite !digits2_log2, iter_xO, Z.log2_mul_pow2 by lia.
    rewrite digits2_log2 in Hd.
    apply fexp_mono. lia.
Qed.

End Rounding.

(** What a single-precision cell is given, it holds as a single-precision
    value. *)
Lemma to_single_single x : single (to_single x).
Proof.
  unfold to_single, single. destruct (Prim2SF x) as [s|s| |s m e] eqn:Hx.
  1-3: exists (Prim2SF x); rewrite Hx; split; [reflexivity|];
       rewrite <- Hx; symmetry; apply SF2Prim_Prim2SF.
  exists (binary_round 24 128 s m e). split; [|reflexivity].
  apply binary_round_valid. lia.
Qed.

(* ===================================================================== *)
(** * Facts about the pipeline *)
(* ===================================================================== *)

Section PipelineFacts.
Context {Row : Type} `{!TTreeFormula (@Entry Row)}.

Notation "'FS'" := (gmap string (@RootFile Row)).
Notation "'Comp' A" := (@M Row A) (at level 10, only parsing).

(** ** Loops *)

Lemma bind_ok {A B} (m : Comp A) (k : A → Comp B) fs fs1 evs1 a :
  m fs = (fs1, evs1, Ok a) →
  (m ≫= k) fs = ((k a fs1).1.1, evs1 ++ (k a fs1).1.2, (k a fs1).2).
Proof.
  intros Hm. unfold mbind, M_bind, bind. rewrite Hm.
  destruct (k a fs1) as [[fs2 evs2] r]. reflexivity.
Qed.

Lemma bind_raise {A B} (m : Comp A) (k : A → Comp B) fs fs1 evs1 e :
  m fs = (fs1, evs1, Raise e) → (m ≫= k) fs = (fs1, evs1, Raise e).
Proof. intros Hm. unfold mbind, M_bind, bind. rewrite Hm. reflexivity. Qed.

(** An exception raised by one iteration ends the loop there: the files and
    events of the iterations run so far are kept, the remaining iterations
    do not run. *)
Lemma for_loop_raise {A S} (body : S → A → Comp S) l1 x l2 s fs fs1 evs1 s1 fs2 evs2 e :
  for_loop body s l1 fs = (fs1, evs1, Ok s1) →
  body s1 x fs1 = (fs2, evs2, Raise e) →
  for_loop body s (l1 ++ x :: l2) fs = (fs2, evs1 ++ evs2, Raise e).
Proof.
  revert s fs evs1. induction l1 as [|y l1 IH]; intros s fs evs1 H1 H2; simpl in *.
  - unfold ret in H1. injection H1 as <- <- <-.
    erewrite bind_raise by eassumption. reflexivity.
  - unfold mbind, M_bind, bind in *.
    destruct (body s y fs) as [[fsa evsa] [sa|ea]]; [|discriminate].
    destruct (for_loop body sa l1 fsa) as [[fsb evsb] rb] eqn:Hl.
    injection H1 as <- <- ->.
    specialize (IH sa fsa evsb Hl H2). unfold mbind, M_bind, bind in IH.
    rewrite IH. rewrite app_assoc. reflexivity.
Qed.

(** ** Building the chains *)

Lemma add_file_eq basepath chain filename (fs : FS) :
  add_file basepath chain filename fs =
  (fs, add_file_events fs basepath filename,
   Ok {| chain_tree := chain_tree chain;
         chain_files := chain_files chain ++ [path_join basepath filename] |}).
Proof.
  unfold add_file, add_file_events, mbind, M_bind, bind, get_fs, emit, ret.
  destruct (decide (is_Some (fs !! path_join basepath filename))); reflexivity.
Qed.

Lemma add_files_eq basepath fnames chain (fs : FS) :
  for_loop (add_file basepath) chain fnames fs =
  (fs, concat (add_file_events fs basepath <$> fnames),
   Ok {| chain_tree := chain_tree chain;
         chain_files := chain_files chain ++ (path_join basepath <$> fnames) |}).
Proof.
  revert chain. induction fnames as [|f fnames IH]; intros chain; simpl.
  - rewrite app_nil_r. destruct chain; reflexivity.
  - erewrite bind_ok by apply add_file_eq. rewrite IH. simpl.
    rewrite <- app_assoc. reflexivity.
Qed.

Lemma build_chains_eq config spec basepaths (fs : FS) :
  build_chains config spec basepaths fs =
  (fs, build_events fs spec basepaths, Ok (chains_of config spec basepaths)).
Proof.
  unfold build_chains, build_events, chains_of.
  enough (∀ acc, for_loop (λ chains basepath,
      chain ← for_loop (add_file basepath)
                {| chain_tree := tree_path config; chain_files := [] |} (files spec);
      ret (chains ++ [chain])) acc basepaths fs =
    (fs, concat ((λ basepath, concat (add_file_events fs basepath <$> files spec)) <$> basepaths),
     Ok (acc ++ ((λ basepath, {| chain_tree := tree_path config;
                  chain_files := path_join basepath <$> files spec |}) <$> basepaths)))) as Hgen
    by apply (Hgen []).
  induction basepaths as [|bp bps IH]; intros acc; simpl.
  - rewrite app_nil_r. reflexivity.
  - erewrite bind_ok; [|erewrite bind_ok by apply add_files_eq; reflexivity].
    simpl. rewrite IH. simpl. rewrite app_nil_r, <- app_assoc. reflexivity.
Qed.

(** ** One target, step by step *)

Lemma target_iteration_eq config num_fold process spec basepaths created_files i (fs : FS) :
  target_iteration config num_fold process spec basepaths created_files i fs =
  target_outcome config num_fold process spec basepaths created_files i fs.
Proof.
  unfold target_iteration, target_outcome.
  erewrite bind_ok by apply build_chains_eq. simpl.
  unfold mbind, M_bind, bind, lift, emit, put_file, modify_fs, get_fs, ret, raise.
  destruct (unit_path config num_fold process i) as [out|e]; simpl;
    [|rewrite app_nil_r; reflexivity].
  destruct (index (chains_of config spec basepaths) 0) as [base|e]; simpl; [|reflexivity].
  destruct (decide (0 < GetEntries (<[out:=empty_file]> fs) base)); simpl; [|reflexivity].
  unfold joined_view, mbind, result_mbind, result_bind.
  destruct (index (chains_of config spec basepaths) i) as [target|e]; simpl; [|reflexivity].
  destruct (friends_of config i (enumerate (chains_of config spec basepaths)))
    as [friends|e]; simpl; [|reflexivity].
  destruct (selection_string config num_fold spec i) as [selection|e]; simpl; [|reflexivity].
  destruct (decide (0 < length (CopyTree (<[out:=empty_file]> fs) target friends selection)));
    simpl; [|reflexivity].
  unfold weighted. destruct i; reflexivity.
Qed.

(** ** The training weight *)

Lemma fill_loop_from w (tree : list (@Entry Row)) n a st :
  a + n ≤ length tree →
  (fold_left (fill_step w tree) (seq a n) st).2
  = st.2 ++ (weight_of w <$> take n (drop a tree)).
Proof.
  revert a st. induction n as [|n IH]; intros a st Hlen; simpl.
  - rewrite app_nil_r. reflexivity.
  - destruct (lookup_lt_is_Some_2 tree a) as [e He]; [lia|].
    rewrite IH by lia. unfold fill_step. rewrite He. simpl.
    rewrite (drop_S _ _ _ He). simpl. rewrite <- app_assoc. reflexivity.
Qed.

(** The branch is filled with one value per entry, in entry order, and the
    initial content of the buffer does not reach it. *)
Lemma fill_loop_any_buffer w (tree : list (@Entry Row)) buf :
  (fold_left (fill_step w tree) (seq 0 (length tree)) (buf, [])).2 = weight_of w <$> tree.
Proof.
  rewrite fill_loop_from by lia. simpl. rewrite drop_0, firstn_all. reflexivity.
Qed.

Lemma weighted_base config spec (tree : list (@Entry Row)) :
  weighted config spec 0 tree
  = with_weight (training_weight_branch config) (weight_string spec) <$> tree.
Proof.
  unfold weighted, with_branch, fill_training_weight. rewrite fill_loop_any_buffer.
  rewrite <- (imap_const (with_weight _ _)). apply imap_ext. intros k e He. simpl.
  rewrite list_lookup_fmap, He. reflexivity.
Qed.


(** C4, as the code has it: when the selection of a target keeps no entry,
    the iteration logs the fatal message and raises the bare [Exception];
    nothing is written (no [EvWrite]), but the file of the output unit has
    been created before the check and is left behind without a tree. *)
Theorem empty_selection_raises config num_fold process spec basepaths created_files i
    (fs : FS) out base target friends selection :
  unit_path config num_fold process i = Ok out →
  index (chains_of config spec basepaths) 0 = Ok base →
  0 < GetEntries (<[out := empty_file]> fs) base →
  joined_view config num_fold spec (chains_of config spec basepaths) i
    = Ok (target, friends, selection) →
  CopyTree (<[out := empty_file]> fs) target friends selection = [] →
  ∃ fs',
    target_iteration config num_fold process spec basepaths created_files i fs
    = (fs',
       build_events fs spec basepaths
         ++ [EvRecreate out; EvCopyTree i selection;
             EvFatal "Chain (after skimming) does not contain any events."],
       Raise Exception)
    ∧ fs' !! out = Some empty_file.
Proof.
  intros Hout Hbase Hn Hview Hskim. exists (<[out := empty_file]> fs).
  rewrite target_iteration_eq. unfold target_outcome.
  rewrite Hout, Hbase. simpl. rewrite decide_True by assumption.
  rewrite Hview, Hskim. simpl. split; [reflexivity|apply lookup_insert_eq].
Qed.

(** C5, as the code has it: the check before the selection counts the
    entries of the base chain [chains[0]], whatever the target.  When the
    base chain is empty the iteration logs the fatal message and raises
    before any selection is evaluated (no [EvCopyTree]). *)
Theorem empty_base_chain_raises config num_fold process spec basepaths created_files i
    (fs : FS) out base :
  unit_path config num_fold process i = Ok out →
  index (chains_of config spec basepaths) 0 = Ok base →
  GetEntries (<[out := empty_file]> fs) base = 0 →
  target_iteration config num_fold process spec basepaths created_files i fs
  = (<[out := empty_file]> fs,
     build_events fs spec basepaths
       ++ [EvRecreate out;
           EvFatal "Chain (before skimming) does not contain any events."],
     Raise Exception).
Proof.
  intros Hout Hbase Hn. rewrite target_iteration_eq. unfold target_outcome.
  rewrite Hout, Hbase. simpl. rewrite decide_False by lia. reflexivity.
Qed.

(** ** The output units and the merge *)

Lemma index_ok {A} (l : list A) k x : index l k = Ok x → l !! k = Some x.
Proof. unfold index. destruct (l !! k); intros [= ->]; reflexivity. Qed.

Lemma unit_path_ok config num_fold process i out :
  unit_path config num_fold process i = Ok out → out = unit_file config num_fold process i.
Proof.
  unfold unit_path, unit_file, alias_of. destruct i as [|k]; [intros [= <-]; reflexivity|].
  unfold mbind, result_mbind, result_bind.
  destruct (index (friend_aliases config) k) as [a|] eqn:Ha; [|discriminate].
  apply index_ok in Ha. rewrite Ha. intros [= <-]. reflexivity.
Qed.

Lemma merged_path_ok config num_fold i out :
  merged_path config num_fold i = Ok out → out = merged_file config num_fold i.
Proof.
  unfold merged_path, merged_file, alias_of. destruct i as [|k]; [intros [= <-]; reflexivity|].
  unfold mbind, result_mbind, result_bind.
  destruct (index (friend_aliases config) k) as [a|] eqn:Ha; [|discriminate].
  apply index_ok in Ha. rewrite Ha. intros [= <-]. reflexivity.
Qed.

Lemma append_to_last_snoc {A} (ll : list (list A)) (row : list A) x :
  append_to_last (ll ++ [row]) x = ll ++ [row ++ [x]].
Proof.
  unfold append_to_last. rewrite length_app. simpl.
  replace (length ll + 1 - 1) with (length ll + 0) by lia.
  rewrite alter_app_r. reflexivity.
Qed.

Lemma build_events_no_call (fs : FS) spec basepaths :
  Forall (λ ev, is_call ev = false) (build_events fs spec basepaths).
Proof.
  unfold build_events. apply Forall_concat, Forall_fmap, Forall_forall. intros bp _.
  apply Forall_concat, Forall_fmap, Forall_forall. intros fn _.
  unfold compose, add_file_events. case_decide; repeat constructor.
Qed.

(** A target that completes: where it wrote, and what it let be seen. *)
Lemma target_iteration_ok config num_fold process spec basepaths created_files i
    (fs fs' : FS) evs r :
  target_iteration config num_fold process spec basepaths created_files i fs
    = (fs', evs, Ok r) →
  r.1 = append_to_last created_files (unit_file config num_fold process i)
  ∧ r.2 = Reset <$> chains_of config spec basepaths
  ∧ Forall (λ ev, is_call ev = false) evs
  ∧ EvWrite (unit_file config num_fold process i) (class spec) ∈ evs.
Proof.
  rewrite target_iteration_eq. unfold target_outcome.
  destruct (unit_path config num_fold process i) as [out|] eqn:Hout; [|discriminate].
  apply unit_path_ok in Hout. subst out.
  destruct (index (chains_of config spec basepaths) 0) as [base|]; [|discriminate].
  destruct (decide _); [|discriminate].
  destruct (joined_view config num_fold spec (chains_of config spec basepaths) i)
    as [[[target friends] selection]|]; [|discriminate].
  destruct (decide _); [|discriminate].
  intros [= <- <- <-]. simpl. repeat split.
  - apply Forall_app. split; [apply build_events_no_call|repeat constructor].
  - rewrite elem_of_app. right. set_solver.
Qed.

Lemma bind_ok_inv {A B} (m : Comp A) (k : A → Comp B) fs fs' evs b :
  (m ≫= k) fs = (fs', evs, Ok b) →
  ∃ fs1 evs1 a evs2,
    m fs = (fs1, evs1, Ok a) ∧ k a fs1 = (fs', evs2, Ok b) ∧ evs = evs1 ++ evs2.
Proof.
  unfold mbind, M_bind, bind.
  destruct (m fs) as [[fs1 evs1] [a|e]]; [|discriminate].
  destruct (k a fs1) as [[fs2 evs2] r] eqn:Hk. intros [= <- <- ->].
  exists fs1, evs1, a, evs2. auto.
Qed.

Lemma targets_loop config num_fold item basepaths bps a cf row ch (fs fs' : FS) evs locals' :
  for_loop (target_body config num_fold item basepaths)
    {| created_files := cf ++ [row]; chains := ch |} (zip (seq a (length bps)) bps) fs
    = (fs', evs, Ok locals') →
  created_files locals'
    = cf ++ [row ++ (unit_file config num_fold item.1 <$> seq a (length bps))]
  ∧ chains locals' = match bps with
                     | [] => ch
                     | _ => Some (Reset <$> chains_of config item.2 basepaths)
                     end
  ∧ Forall (λ ev, is_call ev = false) evs
  ∧ ∀ i, a ≤ i < a + length bps →
      EvWrite (unit_file config num_fold item.1 i) (class item.2) ∈ evs.
Proof.
  revert a row ch fs evs. induction bps as [|bp bps IH]; intros a row ch fs evs; simpl.
  - unfold ret. intros [= <- <- <-]. simpl. rewrite app_nil_r.
    repeat split; [constructor|]. intros i Hi. lia.
  - intros Hrun. apply bind_ok_inv in Hrun as (fs1 & evs1 & locals1 & evs2 & Hbody & Hrest & ->).
    unfold target_body in Hbody.
    apply bind_ok_inv in Hbody as (fs0 & evs0 & r & evs0' & Htarget & Hret & ->).
    unfold ret in Hret. injection Hret as <- <- <-. simpl in Htarget.
    apply target_iteration_ok in Htarget as (Hcf & Hch & Hnc & Hw).
    rewrite Hcf, Hch, append_to_last_snoc in Hrest.
    apply IH in Hrest as (Hcf' & Hch' & Hnc' & Hw').
    rewrite app_nil_r. split; [|split; [|split]].
    + rewrite Hcf', <- app_assoc. reflexivity.
    + rewrite Hch'. destruct bps; reflexivity.
    + apply Forall_app. split; assumption.
    + intros i Hi. rewrite elem_of_app. destruct (decide (i = a)) as [->|Hne].
      * left. assumption.
      * right. apply Hw'. lia.
Qed.

Lemma processes_loop config num_fold ps locals (fs fs' : FS) evs locals' :
  for_loop (process_iteration config num_fold) locals ps fs = (fs', evs, Ok locals') →
  created_files locals'
    = created_files locals
      ++ ((λ item : string * ProcessSpec,
             unit_file config num_fold item.1 <$> seq 0 (S (length (friend_dirs config))))
          <$> ps)
  ∧ (ps = [] ∧ chains locals' = chains locals
     ∨ ps ≠ [] ∧ ∃ cs, chains locals' = Some cs
                        ∧ length cs = S (length (friend_dirs config)))
  ∧ Forall (λ ev, is_call ev = false) evs
  ∧ ∀ item i, item ∈ ps → i ≤ length (friend_dirs config) →
      EvWrite (unit_file config num_fold item.1 i) (class item.2) ∈ evs.
Proof.
  revert locals fs evs. induction ps as [|item ps IH]; intros locals fs evs; simpl.
  - unfold ret. intros [= <- <- <-]. rewrite app_nil_r.
    repeat split; [left; auto|constructor|]. intros item i Hin. set_solver.
  - intros Hrun. apply bind_ok_inv in Hrun as (fs1 & evs1 & locals1 & evs2 & Hbody & Hrest & ->).
    unfold process_iteration in Hbody.
    change (for_loop (target_body config num_fold item (base_path config :: friend_dirs config))
              {| created_files := created_files locals ++ [[]]; chains := chains locals |}
              (zip (seq 0 (length (base_path config :: friend_dirs config)))
                   (base_path config :: friend_dirs config)) fs
            = (fs1, evs1, Ok locals1)) in Hbody.
    apply targets_loop in Hbody as (Hcf & Hch & Hnc & Hw).
    apply IH in Hrest as (Hcf' & Hch' & Hnc' & Hw').
    split; [|split; [|split]].
    + rewrite Hcf', Hcf. simpl. rewrite <- app_assoc. reflexivity.
    + right. split; [discriminate|].
      destruct Hch' as [[-> ->]|[_ Hcs]]; [|exact Hcs].
      rewrite Hch. eexists. split; [reflexivity|].
      unfold chains_of. rewrite !length_fmap. reflexivity.
    + apply Forall_app. split; assumption.
    + intros item' i Hin Hi. rewrite elem_of_app. apply elem_of_cons in Hin as [->|Hin].
      * left. apply Hw. simpl. lia.
      * right. apply Hw'; assumption.
Qed.

Lemma index_fmap_seq {A} (f : nat → A) n i x : index (f <$> seq 0 n) i = Ok x → x = f i.
Proof.
  intros Hx. apply index_ok in Hx. rewrite list_lookup_fmap in Hx.
  destruct (seq 0 n !! i) as [j|] eqn:Hj; [|discriminate].
  apply lookup_seq in Hj as [-> _]. injection Hx as <-. reflexivity.
Qed.

Lemma sub_created_files_ok config num_fold ps i inputs :
  sub_created_files (units_of config num_fold ps) i = Ok inputs →
  inputs = (λ item : string * ProcessSpec, unit_file config num_fold item.1 i) <$> ps.
Proof.
  revert inputs. induction ps as [|item ps IH]; intros inputs.
  - intros [= <-]. reflexivity.
  - unfold units_of. rewrite !fmap_cons. fold (units_of config num_fold ps).
    cbn [sub_created_files]. unfold mbind, result_mbind, result_bind.
    destruct (index _ i) as [p|] eqn:Hp; [|discriminate].
    destruct (sub_created_files _ i) as [rest|]; [|discriminate].
    intros [= <-]. rewrite (IH rest eq_refl). f_equal.
    apply index_fmap_seq in Hp. exact Hp.
Qed.

(** A merge that is invoked: its command line, and the file it leaves. *)
Lemma merge_target_ok config num_fold ps i (fs fs' : FS) evs :
  merge_target config num_fold (units_of config num_fold ps) i fs = (fs', evs, Ok tt) →
  let inputs := (λ item : string * ProcessSpec, unit_file config num_fold item.1 i) <$> ps in
  evs = [EvCall (["hadd"; "-f"; merged_file config num_fold i] ++ inputs)]
  ∧ fs' = hadd (merged_file config num_fold i) inputs fs.
Proof.
  unfold merge_target, lift, call_hadd, emit, modify_fs, mbind, M_bind, bind.
  destruct (merged_path config num_fold i) as [out|] eqn:Hout; [|discriminate].
  apply merged_path_ok in Hout. subst out.
  destruct (sub_created_files _ i) as [inputs|] eqn:Hin; [|discriminate].
  apply sub_created_files_ok in Hin. subst inputs. simpl.
  intros [= <- <-]. split; reflexivity.
Qed.

Lemma merge_loop config num_fold (cs : list Chain) a (fs fs' : FS) evs :
  for_loop (λ (_ : unit) (ic : nat * Chain),
              merge_target config num_fold (units_of config num_fold (processes config)) ic.1)
    tt (zip (seq a (length cs)) cs) fs = (fs', evs, Ok tt) →
  evs = EvCall <$> (hadd_command config num_fold <$> seq a (length cs)).
Proof.
  revert a fs evs. induction cs as [|c cs IH]; intros a fs evs; simpl.
  - unfold ret. intros [= <- <-]. reflexivity.
  - intros Hrun. apply bind_ok_inv in Hrun as (fs1 & evs1 & [] & evs2 & Hstep & Hrest & ->).
    simpl in Hstep. apply merge_target_ok in Hstep as [-> _].
    apply IH in Hrest as ->. reflexivity.
Qed.

(** One fold that completes.  [chains0] is the local variable [chains] as
    the fold finds it: unbound, or with one chain per source. *)
Lemma fold_iteration_ok config chains0 num_fold (fs fs' : FS) evs chains1 :
  (∀ cs0, chains0 = Some cs0 → length cs0 = S (length (friend_dirs config))) →
  fold_iteration config chains0 num_fold fs = (fs', evs, Ok chains1) →
  ∃ written fs_units locals cs fs_merged rest,
    for_loop (process_iteration config num_fold)
      {| created_files := []; chains := chains0 |} (processes config) fs
      = (fs_units, written, Ok locals)
    ∧ created_files locals = units_of config num_fold (processes config)
    ∧ chains1 = Some cs ∧ length cs = S (length (friend_dirs config))
    ∧ evs = written ++ (EvCall <$> hadd_commands config num_fold)
    ∧ Forall (λ ev, is_call ev = false) written
    ∧ (∀ item i, item ∈ processes config → i ≤ length (friend_dirs config) →
         EvWrite (unit_file config num_fold item.1 i) (class item.2) ∈ written)
    ∧ merge_target config num_fold (created_files locals) 0 fs_units
      = (fs_merged, rest, Ok tt)
    ∧ (chains0 = None → processes config ≠ []).
Proof.
  unfold fold_iteration. intros Hc0 Hrun.
  apply bind_ok_inv in Hrun as (fs_units & written & locals & evs2 & Hloop & Hmerge & ->).
  pose proof Hloop as Hfacts. apply processes_loop in Hfacts as (Hcf & Hch & Hnc & Hw).
  simpl in Hcf. fold (units_of config num_fold (processes config)) in Hcf.
  destruct (chains locals) as [cs|] eqn:Hcs; [|discriminate].
  apply bind_ok_inv in Hmerge as (fs2 & evs3 & [] & evs4 & Hm & Hret & ->).
  unfold ret in Hret. injection Hret as <- <- <-.
  assert (length cs = S (length (friend_dirs config))) as Hlen.
  { destruct Hch as [[_ Heq]|[_ (cs' & Heq & Hl)]]; [|congruence].
    simpl in Heq. apply Hc0. congruence. }
  rewrite Hcf in Hm. unfold enumerate in Hm.
  pose proof Hm as Hevs. apply merge_loop in Hevs.
  destruct cs as [|c cs]; [discriminate|]. simpl in Hm.
  apply bind_ok_inv in Hm as (fs_merged & rest & [] & evs5 & Hstep & _ & _).
  exists written, fs_units, locals, (c :: cs), fs_merged, rest.
  split; [exact Hloop|]. split; [exact Hcf|]. split; [reflexivity|]. split; [exact Hlen|].
  split; [|split; [exact Hnc|split; [exact Hw|split]]].
  - rewrite app_nil_r, Hevs, Hlen. reflexivity.
  - rewrite Hcf. exact Hstep.
  - intros -> Hnil. destruct Hch as [[_ Heq]|[Hne _]]; [|contradiction].
    simpl in Heq. congruence.
Qed.

Lemma hadd_rows output inputs (fs : FS) :
  rows_at (hadd output inputs fs) output = concat (rows_at fs <$> inputs).
Proof.
  unfold rows_at at 1. unfold hadd. rewrite lookup_insert_eq. unfold file_rows. simpl.
  induction inputs as [|p inputs IH]; [reflexivity|].
  rewrite !fmap_cons, !concat_cons, fmap_app, concat_app, IH.
  unfold rows_at, file_rows. destruct (fs !! p); reflexivity.
Qed.

(** C7: in a run of [main] that completes, the events are, fold 0 before
    fold 1: what the processes of the fold let be seen, which has no call and
    has the write of every output unit of the fold, and then the merge
    commands of the fold, one [hadd -f] per source, base first, each over the
    output units of that source and fold in process order.  The merge of
    (source 0, fold 0) runs on the files as the processes of fold 0 left them
    and leaves at its output path the concatenation of the entries of its
    inputs. *)
Theorem merge_once_per_source_and_fold config (fs fs' : FS) evs :
  main config fs = (fs', evs, Ok tt) →
  ∃ written0 written1 fs_units locals fs_merged,
    evs = written0 ++ (EvCall <$> hadd_commands config 0)
          ++ written1 ++ (EvCall <$> hadd_commands config 1)
    ∧ Forall (λ ev, is_call ev = false) written0
    ∧ Forall (λ ev, is_call ev = false) written1
    ∧ (∀ item i, item ∈ processes config → i ≤ length (friend_dirs config) →
         EvWrite (unit_file config 0 item.1 i) (class item.2) ∈ written0
         ∧ EvWrite (unit_file config 1 item.1 i) (class item.2) ∈ written1)
    ∧ for_loop (process_iteration config 0)
        {| created_files := []; chains := None |} (processes config) fs
      = (fs_units, written0, Ok locals)
    ∧ merge_target config 0 (created_files locals) 0 fs_units
      = (fs_merged, [EvCall (hadd_command config 0 0)], Ok tt)
    ∧ rows_at fs_merged (merged_file config 0 0)
      = concat ((λ item : string * ProcessSpec,
                   rows_at fs_units (unit_file config 0 item.1 0)) <$> processes config).
Proof.
  unfold main. intros Hrun.
  apply bind_ok_inv in Hrun as (fs2 & evs2 & ch2 & evs3 & Hfolds & Hret & ->).
  unfold ret in Hret. injection Hret as <- <-. rewrite app_nil_r.
  simpl in Hfolds.
  apply bind_ok_inv in Hfolds as (fs1 & evs0 & ch1 & evs1' & Hfold0 & Hfolds & ->).
  apply bind_ok_inv in Hfolds as (fs2' & evs1 & ch2' & evs2' & Hfold1 & Hret & ->).
  unfold ret in Hret. injection Hret as <- <- <-. rewrite app_nil_r.
  apply fold_iteration_ok in Hfold0
    as (written0 & fs_units & locals & cs & fs_merged & rest
        & Hloop & Hcf & -> & Hlen & -> & Hnc0 & Hw0 & Hstep & _); [|discriminate].
  apply fold_iteration_ok in Hfold1
    as (written1 & _ & _ & _ & _ & _ & _ & _ & _ & _ & -> & Hnc1 & Hw1 & _ & _);
    [|intros cs0 [= <-]; exact Hlen].
  rewrite Hcf in Hstep. pose proof Hstep as Hm. apply merge_target_ok in Hm as [-> ->].
  exists written0, written1, fs_units, locals, (hadd (merged_file config 0 0)
    ((λ item : string * ProcessSpec, unit_file config 0 item.1 0) <$> processes config) fs_units).
  split; [rewrite <- !app_assoc; reflexivity|].
  split; [exact Hnc0|]. split; [exact Hnc1|].
  split; [intros item i Hin Hi; split; auto|].
  split; [exact Hloop|]. split; [rewrite Hcf; exact Hstep|].
  rewrite hadd_rows, <- list_fmap_compose. reflexivity.
Qed.

(** C10: with no process in the configuration, [main] raises on reading
    the local variable [chains] at the merge of fold 0 (an
    [UnboundLocalError], which is a [NameError]); no file is touched and no
    merge command is run. *)
Theorem no_merge_without_processes config (fs : FS) :
  processes config = [] →
  main config fs = (fs, [], Raise (UnboundLocalError "chains")).
Proof.
  intros Hnil. unfold main. simpl. unfold fold_iteration. rewrite Hnil. reflexivity.
Qed.

End PipelineFacts.

(* ===================================================================== *)
(** * The selection text *)
(* ===================================================================== *)

Section SelectionText.

Lemma startswith_nil s : PyStr.startswith s EmptyString = true → s = EmptyString.
Proof. destruct s; [reflexivity|discriminate]. Qed.

Lemma remove_scan_clean old s :
  PyStr.contains old s = false → PyStr.remove_scan old 0 s = s.
Proof.
  induction s as [|c s IH]; [reflexivity|]. cbn [PyStr.contains PyStr.remove_scan].
  intros [Hhead Htail]%orb_false_elim. rewrite Hhead, IH by exact Htail. reflexivity.
Qed.

(** Text without the pattern is left as it is. *)
Lemma remove_all_clean old s :
  PyStr.contains old s = false → PyStr.remove_all old s = s.
Proof.
  unfold PyStr.remove_all. destruct old; [reflexivity|]. apply remove_scan_clean.
Qed.

Lemma remove_scan_qualifiers old s : ∀ prev skip,
  Qualifier.only_qualifies old prev s = true →
  PyStr.remove_scan old skip s = Qualifier.strip_scan old prev skip s.
Proof.
  induction s as [|c s IH]; intros prev skip; [reflexivity|].
  cbn [Qualifier.only_qualifies PyStr.remove_scan Qualifier.strip_scan].
  intros [Hhere Hrest]%andb_prop. destruct skip as [|k].
  - destruct (PyStr.startswith old (String c s)).
    + rewrite Hhere. simpl. apply IH, Hrest.
    + simpl. f_equal. apply IH, Hrest.
  - apply IH, Hrest.
Qed.

(** Where the pattern only ever qualifies a column, removing its every
    occurrence is stripping the qualifications. *)
Lemma remove_all_qualifiers alias s :
  Qualifier.only_qualifies (alias +:+ ".") false s = true →
  PyStr.remove_all (alias +:+ ".") s = Qualifier.strip_own_qualifier alias s.
Proof.
  intros Hq. unfold PyStr.remove_all, Qualifier.strip_own_qualifier.
  destruct (alias +:+ ".") as [|a old] eqn:Hold.
  - destruct alias; discriminate.
  - apply remove_scan_qualifiers, Hq.
Qed.

Lemma remove_scan_skip old u : ∀ s,
  PyStr.remove_scan old (String.length u) (u +:+ s) = PyStr.remove_scan old 0 s.
Proof. induction u as [|c u IH]; intros s; [reflexivity|]. simpl. apply IH. Qed.

Lemma startswith_refl_app old s : PyStr.startswith old (old +:+ s) = true.
Proof.
  induction old as [|c old IH]; [reflexivity|]. simpl. rewrite Ascii.eqb_refl. exact IH.
Qed.

(** An occurrence at the cursor is dropped and the scan resumes behind it. *)
Lemma remove_scan_head old s :
  old ≠ EmptyString →
  PyStr.remove_scan old 0 (old +:+ s) = PyStr.remove_scan old 0 s.
Proof.
  intros Hne. destruct old as [|c old]; [contradiction|].
  change (String c old +:+ s) with (String c (old +:+ s)).
  cbn [PyStr.remove_scan].
  change (String c (old +:+ s)) with (String c old +:+ s).
  rewrite startswith_refl_app. cbn [String.length].
  replace (S (String.length old) - 1) with (String.length old) by lia.
  apply remove_scan_skip.
Qed.

(** The first occurrence met by the scan is dropped, wherever it stands. *)
Lemma remove_all_first old s1 s2 :
  PyStr.clean_prefix old s1 (old +:+ s2) = true →
  PyStr.remove_all old (s1 +:+ old +:+ s2) = s1 +:+ PyStr.remove_all old s2.
Proof.
  unfold PyStr.remove_all. destruct old as [|a old]; [reflexivity|].
  induction s1 as [|c s1 IH]; intros Hclean.
  - change (PyStr.remove_scan (String a old) 0 (String a old +:+ s2)
            = PyStr.remove_scan (String a old) 0 s2).
    apply remove_scan_head. discriminate.
  - cbn [PyStr.clean_prefix] in Hclean. apply andb_prop in Hclean as [Hhere Hrest].
    apply negb_true_iff in Hhere.
    change (String c s1 +:+ String a old +:+ s2) with (String c (s1 +:+ String a old +:+ s2)).
    cbn [PyStr.remove_scan].
    change (String c (s1 +:+ String a old +:+ s2)) with (String c s1 +:+ String a old +:+ s2).
    rewrite Hhere, IH by exact Hrest. reflexivity.
Qed.

(** C6, as the code has it: for a friend target the text of its alias
    followed by a dot is removed from the whole composed selection, fold term
    included, at every occurrence a left-to-right scan meets, whether or not
    it qualifies a column there.  A selection without that text is left as it
    is, and where the text only ever stands at the start of an identifier
    the result is the selection with exactly the own qualifications
    stripped. *)
Theorem friend_alias_text_removed config num_fold spec k alias :
  friend_aliases config !! k = Some alias →
  let cut := format_cut_string config num_fold spec in
  let old := alias +:+ "." in
  selection_string config num_fold spec (S k) = Ok (PyStr.remove_all old cut)
  ∧ (PyStr.contains old cut = false → PyStr.remove_all old cut = cut)
  ∧ (∀ s1 s2, cut = s1 +:+ old +:+ s2 →
       PyStr.clean_prefix old s1 (old +:+ s2) = true →
       PyStr.remove_all old cut = s1 +:+ PyStr.remove_all old s2)
  ∧ (Qualifier.only_qualifies old false cut = true →
       PyStr.remove_all old cut = Qualifier.strip_own_qualifier alias cut).
Proof.
  intros Halias cut old. split; [|split; [|split]].
  - unfold selection_string, index. rewrite Halias. reflexivity.
  - apply remove_all_clean.
  - intros s1 s2 -> Hclean. apply remove_all_first, Hclean.
  - apply remove_all_qualifiers.
Qed.

End SelectionText.

(* ===================================================================== *)
(** * The folds *)
(* ===================================================================== *)

Section Folds.
Import Fragment.

Lemma filter_two_way {A} (p0 p1 q : A → bool) (l : list A) :
  (∀ x, p0 x && p1 x = false) →
  (∀ x, p0 x || p1 x = q x) →
  filter (λ x, p0 x = true) l ++ filter (λ x, p1 x = true) l
  ≡ₚ filter (λ x, q x = true) l.
Proof.
  intros Hdisj Hcover. induction l as [|x l IH]; [reflexivity|].
  rewrite !filter_cons. specialize (Hdisj x). specialize (Hcover x).
  destruct (p0 x) eqn:H0, (p1 x) eqn:H1, (q x) eqn:Hq; try discriminate;
    repeat case_decide; try congruence; simpl;
    first [ exact IH
          | rewrite IH; reflexivity
          | rewrite <- Permutation_middle, IH; reflexivity ].
Qed.

(* ------------------------------------------------------------------- *)
(** ** The text of line 83 under the lexer and the parser *)
(* ------------------------------------------------------------------- *)

Lemma word_app w rest : word w rest = word w [] ++ rest.
Proof. unfold word. destruct w; [reflexivity|]. destruct (number 0 _); reflexivity. Qed.

Lemma pretty_fold (num_fold : nat) :
  num_fold < 2 → pretty num_fold = String (ascii_of_nat (48 + num_fold)) EmptyString.
Proof. intros H. destruct num_fold as [|[|]]; [reflexivity|reflexivity|lia]. Qed.

Ltac each_char c := destruct c as [[] [] [] [] [] [] [] []].

Lemma lex_token_more w t (o o' : option (list token)) ts tl :
  word w <$> (cons t <$> o) = Some ts →
  (∀ ts', o = Some ts' → o' = Some (ts' ++ tl)) →
  word w <$> (cons t <$> o') = Some (ts ++ tl).
Proof.
  destruct o as [ts'|]; [|discriminate]. intros [= <-] H. rewrite (H ts' eq_refl).
  cbn [fmap option_fmap option_map].
  rewrite (word_app w (t :: ts' ++ tl)), (word_app w (t :: ts')), <- app_assoc. reflexivity.
Qed.

Lemma lex_blank_more w (o o' : option (list token)) ts tl :
  word w <$> o = Some ts →
  (∀ ts', o = Some ts' → o' = Some (ts' ++ tl)) →
  word w <$> o' = Some (ts ++ tl).
Proof.
  destruct o as [ts'|]; [|discriminate]. intros [= <-] H. rewrite (H ts' eq_refl).
  cbn [fmap option_fmap option_map].
  rewrite (word_app w (ts' ++ tl)), (word_app w ts'), <- app_assoc. reflexivity.
Qed.

(** A text that is read as tokens is read as the same tokens, and one
    more, when a closing parenthesis follows it. *)
Lemma lex_closing : ∀ n s w ts,
  String.length s ≤ n →
  lex w s = Some ts →
  lex w (s +:+ ")") = Some (ts ++ [TRp]).
Proof.
  induction n as [|n IH]; intros s w ts Hn Hlex.
  - destruct s; [|simpl in Hn; lia]. simpl in *. injection Hlex as <-.
    rewrite (word_app w [TRp]). reflexivity.
  - destruct s as [|c s];
      [simpl in *; injection Hlex as <-; rewrite (word_app w [TRp]); reflexivity|].
    simpl in Hn. change (String c s +:+ ")") with (String c (s +:+ ")")).
    cbn [lex] in *.
    destruct (is_ident_char c) eqn:Hc;
      [apply (IH s (w +:+ String c EmptyString)); [lia|exact Hlex]|].
    clear Hc.
    each_char c; try discriminate Hlex;
      try (eapply lex_token_more; [exact Hlex|]; intros ts' Hs; apply IH; [lia|exact Hs]);
      try (eapply lex_blank_more; [exact Hlex|]; intros ts' Hs; apply IH; [lia|exact Hs]).
    all: destruct s as [|c s]; [discriminate Hlex|]; simpl in Hn;
      change (String c s +:+ ")") with (String c (s +:+ ")")).
    all: each_char c; try discriminate Hlex.
    all: eapply lex_token_more; [exact Hlex|]; intros ts' Hs; apply IH; [lia|exact Hs].
Qed.

(** What a parse leaves unread is left unread, with whatever follows a
    closing parenthesis behind it, and more fuel changes nothing. *)
Lemma parse_more : ∀ fuel,
  (∀ fuel' prec ts e rest tl, fuel ≤ fuel' →
     parse_expr fuel prec ts = Some (e, rest) →
     parse_expr fuel' prec (ts ++ TRp :: tl) = Some (e, rest ++ TRp :: tl))
  ∧ (∀ fuel' lhs prec ts e rest tl, fuel ≤ fuel' →
     climb fuel lhs prec ts = Some (e, rest) →
     climb fuel' lhs prec (ts ++ TRp :: tl) = Some (e, rest ++ TRp :: tl)).
Proof.
  induction fuel as [|fuel [IHp IHc]]; [split; intros; discriminate|].
  split.
  - intros [|fuel'] prec ts e rest tl Hle H; [lia|]. apply le_S_n in Hle.
    destruct ts as [|t ts]; [discriminate|].
    destruct t; try discriminate; cbn [parse_expr app] in *.
    + apply IHc; assumption.
    + apply IHc; assumption.
    + destruct (parse_expr fuel 0 ts) as [[e1 [|t1 ts1]]|] eqn:H1; try discriminate.
      destruct t1; try discriminate.
      rewrite (IHp fuel' 0 ts e1 (TRp :: ts1) tl Hle H1). cbn [app].
      apply IHc; assumption.
  - intros [|fuel'] lhs prec ts e rest tl Hle H; [lia|]. apply le_S_n in Hle.
    destruct ts as [|t ts]; cbn [climb app] in *.
    + injection H as <- <-. reflexivity.
    + destruct (binop t) as [[p mk]|]; [|injection H as <- <-; reflexivity].
      destruct (prec <=? p); [|injection H as <- <-; reflexivity].
      destruct (parse_expr fuel (S p) ts) as [[rhs ts1]|] eqn:H1; [|discriminate].
      rewrite (IHp fuel' (S p) ts rhs ts1 tl Hle H1).
      apply IHc; assumption.
Qed.

Lemma parse_paren fuel prec ts :
  parse_expr (S fuel) prec (TLp :: ts)
  = match parse_expr fuel 0 ts with
    | Some (e, TRp :: ts'') => climb fuel e prec ts''
    | _ => None
    end.
Proof. reflexivity. Qed.

Lemma climb_binop fuel lhs prec t ts p mk :
  binop t = Some (p, mk) → (prec <=? p) = true →
  climb (S fuel) lhs prec (t :: ts)
  = match parse_expr fuel (S p) ts with
    | Some (rhs, ts'') => climb fuel (mk lhs rhs) prec ts''
    | None => None
    end.
Proof. intros Hb Hp. cbn [climb]. rewrite Hb, Hp. reflexivity. Qed.

(** The tokens of [(x%2==f)&&(cut)] are read as the conjunction of the
    fold test and of what the tokens of [cut] are read as. *)
Lemma parse_conjunction fuel0 fuel x f ts c :
  parse_expr fuel0 0 ts = Some (c, []) →
  fuel0 + 7 ≤ fuel →
  parse_expr fuel 0
    (TLp :: TId x :: TMod :: TNum 2 :: TEq :: TNum f :: TRp :: TAnd :: TLp :: ts ++ [TRp])
  = Some (And (Eq (Mod (Col x) (Num 2)) (Num f)) c, []).
Proof.
  intros Hc Hfuel.
  destruct fuel as [|[|[|[|fuel]]]]; try lia.
  rewrite parse_paren.
  change (TId x :: TMod :: TNum 2 :: TEq :: TNum f :: TRp :: TAnd :: TLp :: ts ++ [TRp])
    with ([TId x; TMod; TNum 2; TEq; TNum f] ++ TRp :: TAnd :: TLp :: ts ++ [TRp]).
  rewrite (proj1 (parse_more 6) (S (S (S fuel))) 0 [TId x; TMod; TNum 2; TEq; TNum f]
             (Eq (Mod (Col x) (Num 2)) (Num f)) [] (TAnd :: TLp :: ts ++ [TRp])
             ltac:(lia) eq_refl).
  cbn [app].
  rewrite (climb_binop _ _ 0 TAnd _ 2 And eq_refl eq_refl), parse_paren.
  rewrite (proj1 (parse_more fuel0) (S fuel) 0 ts c [] [] ltac:(lia) Hc).
  reflexivity.
Qed.

Lemma append_assoc (a b c : string) : (a +:+ b) +:+ c = a +:+ (b +:+ c).
Proof.
  induction a as [|x a IH]; [reflexivity|].
  change (String x ((a +:+ b) +:+ c) = String x (a +:+ b +:+ c)). f_equal. exact IH.
Qed.

Lemma append_nil_r (w : string) : w +:+ EmptyString = w.
Proof.
  induction w as [|a w IH]; [reflexivity|].
  change (String a (w +:+ EmptyString) = String a w). f_equal. exact IH.
Qed.

Lemma is_ident_char_of c : Qualifier.is_ident c = true → is_ident_char c = true.
Proof.
  unfold Qualifier.is_ident, is_ident_char, is_digit. cbv zeta.
  intros ->. reflexivity.
Qed.

Lemma lex_identifier_chars x : ∀ w rest,
  all_chars Qualifier.is_ident x = true →
  lex w (x +:+ rest) = lex (w +:+ x) rest.
Proof.
  induction x as [|c x IH]; intros w rest Hx.
  - rewrite append_nil_r. reflexivity.
  - cbn [all_chars] in Hx. apply andb_prop in Hx as [Hc Hx].
    change (String c x +:+ rest) with (String c (x +:+ rest)). cbn [lex].
    rewrite (is_ident_char_of c Hc), IH by exact Hx.
    rewrite append_assoc. reflexivity.
Qed.

Lemma word_identifier x rest : identifier x = true → word x rest = TId x :: rest.
Proof.
  destruct x as [|c x]; [discriminate|]. cbn [identifier].
  intros [[_ Hd]%andb_prop _]%andb_prop. apply negb_true_iff in Hd.
  unfold word. cbn [number]. rewrite Hd. reflexivity.
Qed.

Lemma identifier_chars x : identifier x = true → all_chars Qualifier.is_ident x = true.
Proof.
  destruct x as [|c x]; [discriminate|]. cbn [identifier all_chars].
  intros [[-> _]%andb_prop ->]%andb_prop. reflexivity.
Qed.

Lemma lex_format x (num_fold : nat) rest ts :
  identifier x = true → num_fold < 2 →
  lex EmptyString rest = Some ts →
  lex EmptyString ("(" +:+ x +:+ "%2==" +:+ pretty num_fold +:+ ")&&(" +:+ rest)
  = Some (TLp :: TId x :: TMod :: TNum 2 :: TEq :: TNum (N.of_nat num_fold)
            :: TRp :: TAnd :: TLp :: ts).
Proof.
  intros Hx Hf Hrest.
  assert (lex EmptyString ("(" +:+ rest) = Some (TLp :: ts)) as H1.
  { change (word EmptyString <$> (cons TLp <$> lex EmptyString rest) = Some (TLp :: ts)).
    rewrite Hrest. reflexivity. }
  assert (lex EmptyString ("&&(" +:+ rest) = Some (TAnd :: TLp :: ts)) as H2.
  { change (word EmptyString <$> (cons TAnd <$> lex EmptyString ("(" +:+ rest))
            = Some (TAnd :: TLp :: ts)).
    rewrite H1. reflexivity. }
  assert (lex EmptyString (pretty num_fold +:+ ")&&(" +:+ rest)
          = Some (TNum (N.of_nat num_fold) :: TRp :: TAnd :: TLp :: ts)) as H3.
  { rewrite (pretty_fold _ Hf).
    destruct num_fold as [|[|]]; [| |lia].
    - change (word "0" <$> (cons TRp <$> lex EmptyString ("&&(" +:+ rest))
              = Some (TNum 0 :: TRp :: TAnd :: TLp :: ts)).
      rewrite H2. reflexivity.
    - change (word "1" <$> (cons TRp <$> lex EmptyString ("&&(" +:+ rest))
              = Some (TNum 1 :: TRp :: TAnd :: TLp :: ts)).
      rewrite H2. reflexivity. }
  assert (∀ w, lex w ("%2==" +:+ pretty num_fold +:+ ")&&(" +:+ rest)
          = Some (word w (TMod :: TNum 2 :: TEq :: TNum (N.of_nat num_fold)
                            :: TRp :: TAnd :: TLp :: ts))) as H4.
  { intros w.
    change (word w <$> (cons TMod <$>
              (word "2" <$> (cons TEq <$>
                 lex EmptyString (pretty num_fold +:+ ")&&(" +:+ rest))))
            = Some (word w (TMod :: TNum 2 :: TEq :: TNum (N.of_nat num_fold)
                            :: TRp :: TAnd :: TLp :: ts))).
    rewrite H3. reflexivity. }
  change (word EmptyString <$> (cons TLp <$>
            lex EmptyString (x +:+ "%2==" +:+ pretty num_fold +:+ ")&&(" +:+ rest)) = 
          Some (TLp :: TId x :: TMod :: TNum 2 :: TEq :: TNum (N.of_nat num_fold)
            :: TRp :: TAnd :: TLp :: ts)).
  rewrite (lex_identifier_chars x EmptyString _ (identifier_chars x Hx)).
  change (EmptyString +:+ x) with x.
  rewrite H4, (word_identifier x _ Hx). reflexivity.
Qed.

(** The text of line 83 for a column name and a cut that is an expression
    of its own is read as their conjunction. *)
Lemma parse_format x (num_fold : nat) cut c :
  identifier x = true → num_fold < 2 →
  parse cut = Some c →
  parse ("(" +:+ (x +:+ "%2==" +:+ pretty num_fold) +:+ ")&&(" +:+ cut +:+ ")")
  = Some (And (Eq (Mod (Col x) (Num 2)) (Num (N.of_nat num_fold))) c).
Proof.
  intros Hx Hf Hcut. unfold parse in *.
  destruct (lex EmptyString cut) as [ts|] eqn:Hts; [|discriminate].
  cbn [mbind option_bind] in Hcut.
  destruct (parse_expr (2 * length ts + 2) 0 ts) as [[c' [|]]|] eqn:Hp; try discriminate.
  injection Hcut as ->.
  assert (lex EmptyString
            ("(" +:+ (x +:+ "%2==" +:+ pretty num_fold) +:+ ")&&(" +:+ cut +:+ ")")
          = Some (TLp :: TId x :: TMod :: TNum 2 :: TEq :: TNum (N.of_nat num_fold)
                    :: TRp :: TAnd :: TLp :: ts ++ [TRp])) as ->.
  { rewrite !append_assoc.
    apply lex_format; [exact Hx|exact Hf|].
    apply (lex_closing (String.length cut)); [reflexivity|exact Hts]. }
  cbn [mbind option_bind].
  rewrite (parse_conjunction (2 * length ts + 2) _ x (N.of_nat num_fold) ts c Hp);
    [reflexivity|].
  cbn [length]. rewrite length_app. cbn [length]. lia.
Qed.

(* ------------------------------------------------------------------- *)
(** ** Lines 87-89 on the text of line 83 *)
(* ------------------------------------------------------------------- *)

Lemma startswith_delimiter old d s2 : ∀ s1,
  all_chars is_ident_char old = true → is_ident_char d = false →
  PyStr.startswith old (s1 +:+ String d s2) = PyStr.startswith old s1.
Proof.
  induction old as [|a old IH]; intros s1 Hold Hd; [reflexivity|].
  cbn [all_chars] in Hold. apply andb_prop in Hold as [Ha Hold].
  destruct s1 as [|b s1].
  - change (EmptyString +:+ String d s2) with (String d s2). cbn [PyStr.startswith].
    destruct (Ascii.eqb_spec a d) as [->|]; [congruence|reflexivity].
  - change (String b s1 +:+ String d s2) with (String b (s1 +:+ String d s2)).
    cbn [PyStr.startswith]. destruct (Ascii.eqb a b); [|reflexivity].
    apply IH; assumption.
Qed.

Lemma startswith_length old : ∀ s,
  PyStr.startswith old s = true → String.length old ≤ String.length s.
Proof.
  induction old as [|a old IH]; intros [|b s] H; simpl in *; try lia; try discriminate.
  destruct (Ascii.eqb a b); [|discriminate]. apply IH in H. lia.
Qed.

(** The scan for a pattern of identifier characters does not see across a
    character of another kind. *)
Lemma remove_scan_delimiter old d s2 : ∀ s1 skip,
  old ≠ EmptyString →
  all_chars is_ident_char old = true → is_ident_char d = false →
  skip ≤ String.length s1 →
  PyStr.remove_scan old skip (s1 +:+ String d s2)
  = PyStr.remove_scan old skip s1 +:+ String d (PyStr.remove_scan old 0 s2).
Proof.
  intros s1 skip Hne Hold Hd. revert skip.
  induction s1 as [|c s1 IH]; intros skip Hskip.
  - simpl in Hskip. assert (skip = 0) as -> by lia.
    change (EmptyString +:+ String d s2) with (String d s2).
    cbn [PyStr.remove_scan].
    change (String d s2) with (EmptyString +:+ String d s2) at 1.
    rewrite (startswith_delimiter old d s2 EmptyString Hold Hd).
    destruct old; [contradiction|reflexivity].
  - change (String c s1 +:+ String d s2) with (String c (s1 +:+ String d s2)).
    cbn [PyStr.remove_scan]. destruct skip as [|k].
    + change (String c (s1 +:+ String d s2)) with (String c s1 +:+ String d s2).
      rewrite (startswith_delimiter old d s2 (String c s1) Hold Hd).
      destruct (PyStr.startswith old (String c s1)) eqn:Hs.
      * apply IH. apply startswith_length in Hs. simpl in Hs. lia.
      * change (String c (PyStr.remove_scan old 0 s1) +:+ ?r)
          with (String c (PyStr.remove_scan old 0 s1 +:+ r)).
        f_equal. apply IH. lia.
    + apply IH. simpl in Hskip. lia.
Qed.

Lemma remove_all_delimiter old d s1 s2 :
  old ≠ EmptyString →
  all_chars is_ident_char old = true → is_ident_char d = false →
  PyStr.remove_all old (s1 +:+ String d s2)
  = PyStr.remove_all old s1 +:+ String d (PyStr.remove_all old s2).
Proof.
  intros Hne Hold Hd. unfold PyStr.remove_all. destruct old; [contradiction|].
  apply remove_scan_delimiter; [discriminate|exact Hold|exact Hd|lia].
Qed.

Lemma startswith_dot alias : ∀ s,
  PyStr.startswith (alias +:+ ".") s = true → no_dot s = false.
Proof.
  unfold no_dot. induction alias as [|a alias IH]; intros [|b s] H; try discriminate.
  - change (EmptyString +:+ ".") with "." in H. cbn [PyStr.startswith] in H.
    cbn [all_chars].
    destruct (Ascii.eqb_spec "."%char b) as [<-|]; [reflexivity|discriminate].
  - change (String a alias +:+ ".") with (String a (alias +:+ ".")) in H.
    cbn [PyStr.startswith] in H. destruct (Ascii.eqb a b); [|discriminate].
    cbn [all_chars]. rewrite (IH s H). apply andb_false_r.
Qed.

Lemma contains_dot alias s : no_dot s = true → PyStr.contains (alias +:+ ".") s = false.
Proof.
  induction s as [|b s IH]; intros Hs.
  - destruct alias; reflexivity.
  - cbn [PyStr.contains].
    destruct (PyStr.startswith (alias +:+ ".") (String b s)) eqn:H.
    + apply startswith_dot in H. congruence.
    + unfold no_dot in Hs. cbn [all_chars] in Hs. apply andb_prop in Hs as [_ Hs].
      apply IH, Hs.
Qed.

Lemma all_chars_app f s1 s2 :
  all_chars f (s1 +:+ s2) = all_chars f s1 && all_chars f s2.
Proof.
  induction s1 as [|c s1 IH]; [reflexivity|].
  change (String c s1 +:+ s2) with (String c (s1 +:+ s2)). cbn [all_chars].
  rewrite IH. apply andb_assoc.
Qed.

Lemma all_chars_impl (f g : ascii → bool) s :
  (∀ c, f c = true → g c = true) → all_chars f s = true → all_chars g s = true.
Proof.
  intros Hfg. induction s as [|c s IH]; [reflexivity|]. cbn [all_chars].
  intros [Hc Hs]%andb_prop. rewrite (Hfg c Hc), (IH Hs). reflexivity.
Qed.

Lemma is_ident_no_dot c : Qualifier.is_ident c = true → negb (Ascii.eqb c ".") = true.
Proof. destruct (Ascii.eqb_spec c "."%char) as [->|]; [discriminate|reflexivity]. Qed.

Lemma fold_term_no_dot config num_fold :
  identifier (event_branch config) = true → num_fold < 2 →
  no_dot (fold_term config num_fold) = true.
Proof.
  intros Hx Hf. unfold fold_term, no_dot. rewrite (pretty_fold _ Hf), all_chars_app.
  rewrite (all_chars_impl _ _ _ is_ident_no_dot (identifier_chars _ Hx)).
  destruct num_fold as [|[|]]; [reflexivity|reflexivity|lia].
Qed.

(** Lines 87-89 on the text of line 83, for an alias of identifier
    characters and a fold term without a dot: the alias text is removed
    from the cut, and from nowhere else. *)
Lemma remove_all_format alias ft cut :
  all_chars Qualifier.is_ident alias = true → no_dot ft = true →
  PyStr.remove_all (alias +:+ ".") ("(" +:+ ft +:+ ")&&(" +:+ cut +:+ ")")
  = "(" +:+ ft +:+ ")&&(" +:+ PyStr.remove_all (alias +:+ ".") cut +:+ ")".
Proof.
  intros Halias Hft.
  assert (alias +:+ "." ≠ EmptyString) as Hne by (destruct alias; discriminate).
  assert (all_chars is_ident_char (alias +:+ ".") = true) as Hold.
  { rewrite all_chars_app, (all_chars_impl _ _ _ is_ident_char_of Halias). reflexivity. }
  assert (∀ s, PyStr.remove_all (alias +:+ ".") EmptyString +:+ s = s) as Hnil
    by (intros s; unfold PyStr.remove_all; destruct (alias +:+ "."); reflexivity).
  change ("(" +:+ ft +:+ ")&&(" +:+ cut +:+ ")")
    with (EmptyString +:+ String "(" (ft +:+ String ")" (EmptyString +:+ String "&"
            (EmptyString +:+ String "&" (EmptyString +:+ String "("
               (cut +:+ String ")" EmptyString)))))).
  repeat first
    [ rewrite (remove_all_delimiter _ "(" _ _ Hne Hold eq_refl)
    | rewrite (remove_all_delimiter _ ")" _ _ Hne Hold eq_refl)
    | rewrite (remove_all_delimiter _ "&" _ _ Hne Hold eq_refl) ].
  rewrite !Hnil.
  rewrite (remove_all_clean _ ft (contains_dot alias ft Hft)).
  assert (PyStr.remove_all (alias +:+ ".") EmptyString = EmptyString) as ->
    by (unfold PyStr.remove_all; destruct (alias +:+ "."); reflexivity).
  reflexivity.
Qed.

(* ------------------------------------------------------------------- *)
(** ** The selection of a target and the entries it keeps *)
(* ------------------------------------------------------------------- *)

Lemma truth_of_bool b : truth (of_bool b) = b.
Proof. destruct b; reflexivity. Qed.

Lemma filter_same {A} (p q : A → bool) (l : list A) :
  (∀ x, p x = q x) →
  filter (λ x, p x = true) l = filter (λ x, q x = true) l.
Proof.
  intros Hpq. induction l as [|x l IH]; [reflexivity|].
  rewrite !filter_cons, IH, (Hpq x). reflexivity.
Qed.

Lemma own_selection_string config num_fold spec i :
  identifier (event_branch config) = true → num_fold < 2 →
  (∀ k, i = S k → ∃ alias, friend_aliases config !! k = Some alias
                           ∧ all_chars Qualifier.is_ident alias = true) →
  selection_string config num_fold spec i = Ok (own_selection config num_fold spec i).
Proof.
  intros Hx Hf Halias. unfold selection_string, own_selection, own_cut, format_cut_string.
  destruct i as [|k]; [reflexivity|].
  destruct (Halias k eq_refl) as (alias & Hk & Hplain).
  unfold index, alias_of. rewrite Hk. cbn [mbind result_mbind result_bind default].
  rewrite (remove_all_format alias _ _ Hplain (fold_term_no_dot config num_fold Hx Hf)).
  reflexivity.
Qed.

Lemma own_selection_parse config num_fold spec i c :
  identifier (event_branch config) = true → num_fold < 2 →
  parse (own_cut config spec i) = Some c →
  parse (own_selection config num_fold spec i) = Some (And (fold_test config num_fold) c).
Proof. intros Hx Hf Hc. apply parse_format; assumption. Qed.

Lemma own_selection_passes config num_fold spec i c
    (fs : gmap string (@RootFile NRow)) friends ek :
  parse (own_selection config num_fold spec i) = Some (And (fold_test config num_fold) c) →
  passes fs friends (own_selection config num_fold spec i) ek
  = (event_of config ek.1 (friend_view fs friends ek.2) `mod` 2 =? N.of_nat num_fold)%N
    && cut_holds c ek.1 (friend_view fs friends ek.2).
Proof.
  intros Hp. unfold passes, eval_selection, formula, holds. rewrite Hp.
  cbn [eval fold_test]. rewrite !truth_of_bool. reflexivity.
Qed.


End Folds.

(* ===================================================================== *)
(** * The reconstructions *)
(* ===================================================================== *)

Section KerasFacts.
Import Keras.

Lemma global_bound imports x : x ∈ module_globals imports → global imports x = Ok tt.
Proof. intros Hx. unfold global. rewrite decide_True by exact Hx. reflexivity. Qed.

Lemma global_unbound imports x :
  x ∉ module_globals imports → global imports x = Raise (NameError x).
Proof. intros Hx. unfold global. rewrite decide_False by exact Hx. reflexivity. Qed.

(** With [tf] bound, a reconstruction reads the six arrays under the names
    [dense_<n>/kernel:0] and [dense_<n>/bias:0], n = 1, 2, 3. *)
Lemma reconstruction_reads hidden imports input keras_model k1 a1 k2 a2 k3 a3 :
  "tf" ∈ module_globals imports →
  collect_weights keras_model !! "dense_1/kernel:0" = Some k1 →
  collect_weights keras_model !! "dense_1/bias:0" = Some a1 →
  collect_weights keras_model !! "dense_2/kernel:0" = Some k2 →
  collect_weights keras_model !! "dense_2/bias:0" = Some a2 →
  collect_weights keras_model !! "dense_3/kernel:0" = Some k3 →
  collect_weights keras_model !! "dense_3/bias:0" = Some a3 →
  reconstruction hidden imports input keras_model
  = Ok (forward hidden input k1 a1 k2 a2 k3 a3).
Proof.
  intros Htf H1 H2 H3 H4 H5 H6.
  unfold reconstruction, get_variable, getitem.
  rewrite (global_bound _ _ Htf), H1, H2, H3, H4, H5, H6. reflexivity.
Qed.

Lemma graph_stack_forward hidden act input width h1 h2 out v1 v2 v3 v4 v5 v6 :
  (∀ t, hidden t = match act with tanh => Tanh t | relu => Relu t | softmax => Softmax t end) →
  graph_stack input = Some (width, []) →
  graph_stack (forward hidden input
    {| shape := [width; h1]; data := v1 |} {| shape := [h1]; data := v2 |}
    {| shape := [h1; h2]; data := v3 |} {| shape := [h2]; data := v4 |}
    {| shape := [h2; out]; data := v5 |} {| shape := [out]; data := v6 |})
  = Some (out, [(h1, act); (h2, act); (out, softmax)]).
Proof.
  intros Hact Hin. unfold forward. rewrite !Hact.
  destruct act; cbn [graph_stack shape]; rewrite Hin;
    rewrite ?decide_True by (split; reflexivity); cbn [graph_stack shape app];
    rewrite ?decide_True by (split; reflexivity); reflexivity.
Qed.

Lemma trained_dropout_tanh_weights values num_inputs num_outputs :
  let w := collect_weights (trained values (smhtt_dropout_tanh num_inputs num_outputs)) in
  w !! "dense_1/kernel:0"
    = Some {| shape := [num_inputs; 200]; data := values "dense_1/kernel:0" |}
  ∧ w !! "dense_1/bias:0" = Some {| shape := [200]; data := values "dense_1/bias:0" |}
  ∧ w !! "dense_2/kernel:0"
    = Some {| shape := [200; 200]; data := values "dense_2/kernel:0" |}
  ∧ w !! "dense_2/bias:0" = Some {| shape := [200]; data := values "dense_2/bias:0" |}
  ∧ w !! "dense_3/kernel:0"
    = Some {| shape := [200; num_outputs]; data := values "dense_3/kernel:0" |}
  ∧ w !! "dense_3/bias:0"
    = Some {| shape := [num_outputs]; data := values "dense_3/bias:0" |}.
Proof. repeat split; vm_compute; reflexivity. Qed.

Lemma trained_dropout_weights values num_inputs num_outputs :
  let w := collect_weights (trained values (smhtt_dropout num_inputs num_outputs)) in
  w !! "dense_1/kernel:0"
    = Some {| shape := [num_inputs; 200]; data := values "dense_1/kernel:0" |}
  ∧ w !! "dense_1/bias:0" = Some {| shape := [200]; data := values "dense_1/bias:0" |}
  ∧ w !! "dense_2/kernel:0"
    = Some {| shape := [200; 200]; data := values "dense_2/kernel:0" |}
  ∧ w !! "dense_2/bias:0" = Some {| shape := [200]; data := values "dense_2/bias:0" |}
  ∧ w !! "dense_3/kernel:0"
    = Some {| shape := [200; num_outputs]; data := values "dense_3/kernel:0" |}
  ∧ w !! "dense_3/bias:0"
    = Some {| shape := [num_outputs]; data := values "dense_3/bias:0" |}.
Proof. repeat split; vm_compute; reflexivity. Qed.

(** C8: where [tf] is bound, each reconstruction, given the trained model
    of its architecture, builds a graph with as many dense layers as the
    architecture has, of the same widths and with the same activations in
    the same order (200 tanh, 200 tanh, outputs softmax for
    [smhtt_dropout_tanh]; 200 relu, 200 relu, outputs softmax for
    [smhtt_dropout]), and it reads the kernel and the bias of layer n, n = 1,
    2, 3, under the names [dense_<n>/kernel:0] and [dense_<n>/bias:0]. *)
Theorem reconstruction_matches_architecture imports values num_inputs num_outputs :
  "tf" ∈ module_globals imports →
  (∃ g, smhtt_dropout_tanh_tensorflow imports (Placeholder num_inputs)
          (trained values (smhtt_dropout_tanh num_inputs num_outputs)) = Ok g
        ∧ graph_stack g
          = Some (num_outputs, dense_stack (layers (smhtt_dropout_tanh num_inputs num_outputs)))
        ∧ dense_stack (layers (smhtt_dropout_tanh num_inputs num_outputs))
          = [(200, tanh); (200, tanh); (num_outputs, softmax)])
  ∧ (∃ g, smhtt_dropout_tensorflow imports (Placeholder num_inputs)
            (trained values (smhtt_dropout num_inputs num_outputs)) = Ok g
          ∧ graph_stack g
            = Some (num_outputs, dense_stack (layers (smhtt_dropout num_inputs num_outputs)))
          ∧ dense_stack (layers (smhtt_dropout num_inputs num_outputs))
            = [(200, relu); (200, relu); (num_outputs, softmax)])
  ∧ (∀ hidden input keras_model k1 a1 k2 a2 k3 a3,
       collect_weights keras_model !! "dense_1/kernel:0" = Some k1 →
       collect_weights keras_model !! "dense_1/bias:0" = Some a1 →
       collect_weights keras_model !! "dense_2/kernel:0" = Some k2 →
       collect_weights keras_model !! "dense_2/bias:0" = Some a2 →
       collect_weights keras_model !! "dense_3/kernel:0" = Some k3 →
       collect_weights keras_model !! "dense_3/bias:0" = Some a3 →
       reconstruction hidden imports input keras_model
       = Ok (forward hidden input k1 a1 k2 a2 k3 a3)).
Proof.
  intros Htf. split; [|split].
  - destruct (trained_dropout_tanh_weights values num_inputs num_outputs)
      as (H1 & H2 & H3 & H4 & H5 & H6).
    eexists. split; [|split].
    + apply reconstruction_reads; eassumption.
    + apply (graph_stack_forward Tanh tanh); reflexivity.
    + reflexivity.
  - destruct (trained_dropout_weights values num_inputs num_outputs)
      as (H1 & H2 & H3 & H4 & H5 & H6).
    eexists. split; [|split].
    + apply reconstruction_reads; eassumption.
    + apply (graph_stack_forward Relu relu); reflexivity.
    + reflexivity.
  - intros. apply reconstruction_reads; assumption.
Qed.

(** C9, as the code has it: the module has no import statement for [tf],
    so [tf] is bound only if one of the two star imports binds it.  If
    neither does, both reconstructions raise [NameError] on [tf] whatever
    their arguments; if one does, neither raises it. *)
Theorem reconstruction_needs_tf imports input keras_model :
  ("tf" ∈ module_globals imports
   ↔ "tf" ∈ keras_layers_star imports ∨ "tf" ∈ keras_optimizers_star imports)
  ∧ ("tf" ∉ module_globals imports →
       smhtt_dropout_tanh_tensorflow imports input keras_model = Raise (NameError "tf")
       ∧ smhtt_dropout_tensorflow imports input keras_model = Raise (NameError "tf"))
  ∧ ("tf" ∈ module_globals imports →
       smhtt_dropout_tanh_tensorflow imports input keras_model ≠ Raise (NameError "tf")
       ∧ smhtt_dropout_tensorflow imports input keras_model ≠ Raise (NameError "tf")).
Proof.
  split; [|split].
  - unfold module_globals. rewrite !elem_of_app, !elem_of_cons, elem_of_nil.
    split; [|tauto]. intros [H|[H|[H|[H|H]]]]; try tauto;
      repeat (destruct H as [H|H]; [discriminate|]); contradiction.
  - intros Htf. unfold smhtt_dropout_tanh_tensorflow, smhtt_dropout_tensorflow,
      reconstruction, get_variable.
    rewrite (global_unbound _ _ Htf). split; reflexivity.
  - intros Htf.
    assert (∀ hidden, reconstruction hidden imports input keras_model ≠ Raise (NameError "tf"))
      as Hne; [|split; apply Hne].
    intros hidden. unfold reconstruction, get_variable, getitem.
    rewrite (global_bound _ _ Htf). cbn [mbind result_mbind result_bind].
    repeat (match goal with
            | |- context [collect_weights keras_model !! ?k] =>
                destruct (collect_weights keras_model !! k); [|discriminate]
            end; cbn [mbind result_mbind result_bind]).
    discriminate.
Qed.

End KerasFacts.

(* ===================================================================== *)
(** * Runs on concrete inputs *)
(* ===================================================================== *)

Module Runs.
Import Fragment Inputs.


(** The selections of the friend target on the inputs: what it is handed,
    and the entries it keeps for each fold. *)
Example friend_target_folds :
  own_selection (config "pt>20&&nn.score>1") 0 (ggh "pt>20&&nn.score>1") 1
  = "(event%2==0)&&(pt>20&&score>1)"
  ∧ CopyTree (inputs friend_rows) friend_chain [(EmptyString, base_chain)]
      "(event%2==0)&&(pt>20&&score>1)"
    = [entry [("score", 3%N)]]
  ∧ CopyTree (inputs friend_rows) friend_chain [(EmptyString, base_chain)]
      "(event%2==1)&&(pt>20&&score>1)"
    = [entry [("score", 2%N)]].
Proof. vm_compute. repeat split; reflexivity. Qed.



(** The weights 2^24+1 and 2^25+3 of the selected entries are not values of
    the single-precision format: the cell holds 2^24 and 2^25+4, and the
    entries are written with these. *)
Example weights_are_rounded :
  to_single 16777217 = 16777216%float
  ∧ (base_target "pt>20" heavy_inputs).1.1 !! "/out/merge_fold0_ggh.root"
    = Some {| trees := [("sig",
          [{| columns := [("event", 0%N); ("pt", 30%N); ("w", 16777217%N)];
              added := [("training_weight", 16777216%float)] |};
           {| columns := [("event", 2%N); ("pt", 50%N); ("w", 33554435%N)];
              added := [("training_weight", 33554436%float)] |}])] |}.
Proof. vm_compute. split; reflexivity. Qed.

(** What the base target of fold 0 writes on the inputs: the one entry with
    an even event number and [pt > 20], with its weight. *)
Example base_target_writes :
  (base_target "pt>20" (inputs friend_rows)).1.1 !! "/out/merge_fold0_ggh.root"
  = Some {| trees := [("sig",
        [{| columns := [("event", 0%N); ("pt", 30%N); ("w", 2%N)];
            added := [("training_weight", 2%float)] |}])] |}.
Proof. vm_compute. reflexivity. Qed.

(** C4 fails as stated: with a cut that keeps nothing, [main] raises at the
    base target of fold 0, and the path of its output unit, where there was
    no file before, now has one. *)
Lemma empty_selection_leaves_file :
  inputs friend_rows !! "/out/merge_fold0_ggh.root" = None
  ∧ main (config "pt>100") (inputs friend_rows)
    = (<["/out/merge_fold0_ggh.root" := empty_file]> (inputs friend_rows),
       [EvAddFile "/in/a.root"; EvAddFile "/nn/a.root";
        EvRecreate "/out/merge_fold0_ggh.root";
        EvCopyTree 0 "(event%2==0)&&(pt>100)";
        EvFatal "Chain (after skimming) does not contain any events."],
       Raise Exception)
  ∧ (main (config "pt>100") (inputs friend_rows)).1.1 !! "/out/merge_fold0_ggh.root"
    = Some empty_file.
Proof. vm_compute. repeat split; reflexivity. Qed.

Lemma empty_selection_raises_witness :
  ∃ fs',
    base_target "pt>100" (inputs friend_rows)
    = (fs',
       build_events (inputs friend_rows) (ggh "pt>100") ["/in"; "/nn"]
         ++ [EvRecreate "/out/merge_fold0_ggh.root";
             EvCopyTree 0 "(event%2==0)&&(pt>100)";
             EvFatal "Chain (after skimming) does not contain any events."],
       Raise Exception)
    ∧ fs' !! "/out/merge_fold0_ggh.root" = Some empty_file.
Proof.
  apply (empty_selection_raises (config "pt>100") 0 "ggh" (ggh "pt>100") ["/in"; "/nn"] [[]] 0
           (inputs friend_rows) "/out/merge_fold0_ggh.root" base_chain base_chain
           [("nn", friend_chain)] "(event%2==0)&&(pt>100)").
  - reflexivity.
  - reflexivity.
  - vm_compute. lia.
  - reflexivity.
  - vm_compute. reflexivity.
Defined.

(** C5 fails as stated: with a friend tree that has no entry, the chain of
    target 1 is empty before the selection, yet the selection is evaluated
    on it and the run only stops on the check that follows. *)
Lemma empty_friend_chain_reaches_selection :
  main (config "pt>20") (inputs [])
  = ((main (config "pt>20") (inputs [])).1.1,
     [EvAddFile "/in/a.root"; EvAddFile "/nn/a.root";
      EvRecreate "/out/merge_fold0_ggh.root";
      EvCopyTree 0 "(event%2==0)&&(pt>20)";
      EvWrite "/out/merge_fold0_ggh.root" "sig";
      EvAddFile "/in/a.root"; EvAddFile "/nn/a.root";
      EvRecreate "/out/nn_merge_fold0_ggh.root";
      EvCopyTree 1 "(event%2==0)&&(pt>20)";
      EvFatal "Chain (after skimming) does not contain any events."],
     Raise Exception)
  ∧ GetEntries (inputs []) friend_chain = 0
  ∧ GetEntries (main (config "pt>20") (inputs [])).1.1 friend_chain = 0.
Proof. vm_compute. repeat split; reflexivity. Qed.

Lemma empty_base_chain_raises_witness :
  base_target "pt>20" no_files
  = (<["/out/merge_fold0_ggh.root" := empty_file]> no_files,
     build_events no_files (ggh "pt>20") ["/in"; "/nn"]
       ++ [EvRecreate "/out/merge_fold0_ggh.root";
           EvFatal "Chain (before skimming) does not contain any events."],
     Raise Exception).
Proof.
  apply (empty_base_chain_raises (config "pt>20") 0 "ggh" (ggh "pt>20") ["/in"; "/nn"] [[]] 0
           no_files "/out/merge_fold0_ggh.root" base_chain).
  - reflexivity.
  - reflexivity.
  - vm_compute. reflexivity.
Defined.

(** C3 on a missing file: of the two files of the process only [a.root]
    exists.  The check logs its fatal message, [b.root] is added to the chain
    all the same, and [main] runs to its end on the entries of [a.root]
    alone: both folds are written and merged.  The claim has the run fail
    fast there. *)
Theorem missing_file_does_not_stop_the_run :
  inputs friend_rows !! "/in/b.root" = None
  ∧ (main config_two_files (inputs friend_rows)).2 = Ok tt
  ∧ (main config_two_files (inputs friend_rows)).1.2
    = [EvAddFile "/in/a.root";
       EvFatal "File does not exist: /in/b.root"; EvAddFile "/in/b.root";
       EvRecreate "/out/merge_fold0_ggh.root";
       EvCopyTree 0 "(event%2==0)&&(pt>20)";
       EvWrite "/out/merge_fold0_ggh.root" "sig";
       EvCall ["hadd"; "-f"; "/out/fold0_training.root"; "/out/merge_fold0_ggh.root"];
       EvAddFile "/in/a.root";
       EvFatal "File does not exist: /in/b.root"; EvAddFile "/in/b.root";
       EvRecreate "/out/merge_fold1_ggh.root";
       EvCopyTree 0 "(event%2==1)&&(pt>20)";
       EvWrite "/out/merge_fold1_ggh.root" "sig";
       EvCall ["hadd"; "-f"; "/out/fold1_training.root"; "/out/merge_fold1_ggh.root"]].
Proof. vm_compute. repeat split; reflexivity. Qed.

(** C6 fails as stated: for the friend [nn] the qualification by the other
    alias [xnn] loses its last three characters. *)
Lemma other_qualification_is_altered :
  selection_string config_two_friends 0 (ggh "xnn.pt>0&&nn.score>0") 1
    = Ok "(event%2==0)&&(xpt>0&&score>0)"
  ∧ Qualifier.strip_own_qualifier "nn"
      (format_cut_string config_two_friends 0 (ggh "xnn.pt>0&&nn.score>0"))
    = "(event%2==0)&&(xnn.pt>0&&score>0)"
  ∧ selection_string config_two_friends 0 (ggh "xnn.pt>0&&nn.score>0") 1
    ≠ Ok (Qualifier.strip_own_qualifier "nn"
            (format_cut_string config_two_friends 0 (ggh "xnn.pt>0&&nn.score>0"))).
Proof.
  split; [|split]; [vm_compute; reflexivity|vm_compute; reflexivity|].
  vm_compute. intros Heq. discriminate Heq.
Qed.

Lemma friend_alias_text_removed_witness :
  selection_string (config "pt>20&&nn.score>1") 0 (ggh "pt>20&&nn.score>1") 1
  = Ok (PyStr.remove_all "nn."
          (format_cut_string (config "pt>20&&nn.score>1") 0 (ggh "pt>20&&nn.score>1"))).
Proof.
  exact (proj1 (friend_alias_text_removed (config "pt>20&&nn.score>1") 0
                  (ggh "pt>20&&nn.score>1") 0 "nn" eq_refl)).
Defined.

Example friend_selection :
  selection_string (config "pt>20&&nn.score>1") 0 (ggh "pt>20&&nn.score>1") 1
  = Ok "(event%2==0)&&(pt>20&&score>1)".
Proof. vm_compute. reflexivity. Qed.

Lemma merge_once_per_source_and_fold_witness :
  ∃ written0 written1,
    (main (config "pt>20") (inputs friend_rows)).1.2
    = written0 ++ (EvCall <$> hadd_commands (config "pt>20") 0)
      ++ written1 ++ (EvCall <$> hadd_commands (config "pt>20") 1).
Proof.
  destruct (merge_once_per_source_and_fold (config "pt>20") (inputs friend_rows)
              (main (config "pt>20") (inputs friend_rows)).1.1
              (main (config "pt>20") (inputs friend_rows)).1.2)
    as (written0 & written1 & _ & _ & _ & Hevs & _).
  - vm_compute. reflexivity.
  - exists written0, written1. exact Hevs.
Defined.

(** The merge commands of the run, as they are called. *)
Example merge_commands :
  filter (λ ev, is_call ev = true) (main (config "pt>20") (inputs friend_rows)).1.2
  = [EvCall ["hadd"; "-f"; "/out/fold0_training.root"; "/out/merge_fold0_ggh.root"];
     EvCall ["hadd"; "-f"; "/out/nn_fold0_training.root"; "/out/nn_merge_fold0_ggh.root"];
     EvCall ["hadd"; "-f"; "/out/fold1_training.root"; "/out/merge_fold1_ggh.root"];
     EvCall ["hadd"; "-f"; "/out/nn_fold1_training.root"; "/out/nn_merge_fold1_ggh.root"]].
Proof. vm_compute. reflexivity. Qed.

Lemma no_merge_without_processes_witness :
  main config_no_process (inputs friend_rows)
  = (inputs friend_rows, [], Raise (UnboundLocalError "chains")).
Proof.
  apply (no_merge_without_processes config_no_process (inputs friend_rows)). reflexivity.
Defined.

Lemma tf_is_bound : "tf" ∈ Keras.module_globals imports_with_tf.
Proof. unfold Keras.module_globals, imports_with_tf. simpl. set_solver. Qed.

Lemma reconstruction_matches_architecture_witness :
  ∃ g, Keras.smhtt_dropout_tanh_tensorflow imports_with_tf (Keras.Placeholder 10)
         (Keras.trained (λ _, []) (Keras.smhtt_dropout_tanh 10 2)) = Ok g
       ∧ Keras.graph_stack g
         = Some (2, Keras.dense_stack (Keras.layers (Keras.smhtt_dropout_tanh 10 2)))
       ∧ Keras.dense_stack (Keras.layers (Keras.smhtt_dropout_tanh 10 2))
         = [(200, Keras.tanh); (200, Keras.tanh); (2, Keras.softmax)].
Proof.
  exact (proj1 (reconstruction_matches_architecture imports_with_tf (λ _, []) 10 2 tf_is_bound)).
Defined.

(** C9 fails as stated: where a star import binds [tf], both
    reconstructions return their graph. *)
Lemma reconstruction_returns_a_graph :
  (∃ g, Keras.smhtt_dropout_tanh_tensorflow imports_with_tf (Keras.Placeholder 10)
          (Keras.trained (λ _, []) (Keras.smhtt_dropout_tanh 10 2)) = Ok g)
  ∧ (∃ g, Keras.smhtt_dropout_tensorflow imports_with_tf (Keras.Placeholder 10)
            (Keras.trained (λ _, []) (Keras.smhtt_dropout 10 2)) = Ok g).
Proof. split; eexists; vm_compute; reflexivity. Qed.

End Runs.
